(** * YouTube comment scraper (scrapingytcommet.py): model and properties

    The scraper drives a browser through Selenium.  The browser is an
    external collaborator, so it appears here as an oracle: what the DOM
    queries answer.  Everything the script itself computes (identifier
    parsing, field extraction, the collection loop and its three stop
    conditions, the hand-over to the exporters) is translated function by
    function and keeps the names of the source. *)

From Stdlib Require Import String Ascii.
From Stdlib Require Import List Arith Bool Lia.
From Stdlib Require DecimalString DecimalNat.
Import ListNotations.

Open Scope string_scope.
Open Scope list_scope.

(** ** Python [str] operations used by the script

    A character is a code point below 256 ([ascii]); a Python [str] is a
    [string] of them. *)
Module PyStr.

Definition nl : ascii := ascii_of_nat 10.

Definition truthy (s : string) : bool :=
  match s with EmptyString => false | String _ _ => true end.

(** [sub in s] *)
Fixpoint contains (sub s : string) : bool :=
  if prefix sub s then true
  else match s with
       | EmptyString => false
       | String _ s' => contains sub s'
       end.

(** [s.split(c)] for a one-character separator: never empty. *)
Fixpoint split (c : ascii) (s : string) : list string :=
  match s with
  | EmptyString => [EmptyString]
  | String a s' =>
      if Ascii.eqb a c then EmptyString :: split c s'
      else match split c s' with
           | [] => [String a EmptyString]
           | h :: t => String a h :: t
           end
  end.

(** [s.split(c, 1)]: the text before the first [c], and the text after it
    when there is a [c]. *)
Fixpoint split1 (c : ascii) (s : string) : string * option string :=
  match s with
  | EmptyString => (EmptyString, None)
  | String a s' =>
      if Ascii.eqb a c then (EmptyString, Some s')
      else let '(h, t) := split1 c s' in (String a h, t)
  end.

(** [l[0]] and [l[-1]] on the result of a split. *)
Definition first (l : list string) : string := hd EmptyString l.
Definition final (l : list string) : string := last l EmptyString.

(** [s.replace(a, b)] for single characters. *)
Fixpoint replace (a b : ascii) (s : string) : string :=
  match s with
  | EmptyString => EmptyString
  | String c s' => String (if Ascii.eqb c a then b else c) (replace a b s')
  end.

Definition between (lo hi n : nat) : bool := Nat.leb lo n && Nat.leb n hi.

(** [str.isspace] on one character: TAB..CR, FS..US, space, NEL, NBSP. *)
Definition is_space (a : ascii) : bool :=
  let n := nat_of_ascii a in
  between 9 13 n || between 28 32 n || Nat.eqb n 133 || Nat.eqb n 160.

Fixpoint lstrip (s : string) : string :=
  match s with
  | EmptyString => EmptyString
  | String a s' => if is_space a then lstrip s' else s
  end.

Fixpoint rstrip (s : string) : string :=
  match s with
  | EmptyString => EmptyString
  | String a s' =>
      match rstrip s' with
      | EmptyString => if is_space a then EmptyString else String a EmptyString
      | r => String a r
      end
  end.

(** [s.strip()] *)
Definition strip (s : string) : string := lstrip (rstrip s).

(** [s.lower()]: A-Z, and the upper-case letters of Latin-1. *)
Definition lower_char (a : ascii) : ascii :=
  let n := nat_of_ascii a in
  if between 65 90 n || (between 192 222 n && negb (Nat.eqb n 215))
  then ascii_of_nat (n + 32) else a.

Fixpoint lower (s : string) : string :=
  match s with
  | EmptyString => EmptyString
  | String a s' => String (lower_char a) (lower s')
  end.

(** The characters for which [str.isdigit] holds: 0-9 and the superscripts
    1, 2, 3 of Latin-1; only 0-9 are decimal digits that [int] reads. *)
Definition is_decimal (a : ascii) : bool := between 48 57 (nat_of_ascii a).

Definition is_digit (a : ascii) : bool :=
  let n := nat_of_ascii a in
  is_decimal a || Nat.eqb n 178 || Nat.eqb n 179 || Nat.eqb n 185.

Fixpoint all_chars (p : ascii -> bool) (s : string) : bool :=
  match s with
  | EmptyString => true
  | String a s' => p a && all_chars p s'
  end.

(** [s.isdigit()]: false on the empty string. *)
Definition isdigit (s : string) : bool := truthy s && all_chars is_digit s.

Fixpoint decimal_value (acc : nat) (s : string) : nat :=
  match s with
  | EmptyString => acc
  | String a s' => decimal_value (10 * acc + (nat_of_ascii a - 48)) s'
  end.

(** [s.lstrip(chars)]: without the leading characters that [p] holds of. *)
Fixpoint lstrip_of (p : ascii -> bool) (s : string) : string :=
  match s with
  | EmptyString => EmptyString
  | String a s' => if p a then lstrip_of p s' else s
  end.

(** [s.replace(c, "")] for every character [c] that [p] holds of. *)
Fixpoint without (p : ascii -> bool) (s : string) : string :=
  match s with
  | EmptyString => EmptyString
  | String a s' => if p a then without p s' else String a (without p s')
  end.

End PyStr.

(** ** Outcomes of a run

    A Python call returns a value or raises.  The collection loop is a
    [while]; its model takes a bound on the number of iterations and answers
    [Unfinished] when the bound is used up with the guard still true.

    Strings here are strings of code points below 256, and two library calls
    can leave what is modelled: percent-decoding can give a character above
    255, and [urlparse] checks a host in square brackets against the syntax
    of IP addresses.  The model then answers [Outside], and says nothing
    about the call. *)
Inductive exn : Type := IndexError | ValueError.

Inductive run (A : Type) : Type :=
| Ret (a : A)
| Raise (e : exn)
| Unfinished
| Outside.

Arguments Ret {A} a.
Arguments Raise {A} e.
Arguments Unfinished {A}.
Arguments Outside {A}.

Definition bind {A B : Type} (m : run A) (k : A -> run B) : run B :=
  match m with
  | Ret a => k a
  | Raise e => Raise e
  | Unfinished => Unfinished
  | Outside => Outside
  end.

Notation "x <- m ;; k" := (bind m (fun x => k))
  (at level 61, m at next level, right associativity).

(** ** The pieces of [re] and [urllib.parse] the extractor calls

    [urllib.parse] as in Python 3.11. *)
Module PyLib.
Import PyStr.

(** The character class [[A-Za-z0-9_-]]. *)
Definition is_id_char (a : ascii) : bool :=
  let n := nat_of_ascii a in
  between 65 90 n || between 97 122 n || between 48 57 n
  || Nat.eqb n 95 || Nat.eqb n 45.

(** [[A-Za-z0-9_-]{n}] at the head of [s]: the rest of the subject. *)
Fixpoint class_repeat (n : nat) (s : string) : option string :=
  match n with
  | 0 => Some s
  | S n' =>
      match s with
      | EmptyString => None
      | String a s' => if is_id_char a then class_repeat n' s' else None
      end
  end.

(** [$] without [re.MULTILINE]: the end of the subject, or just before a
    line feed that ends the subject. *)
Definition at_dollar (rest : string) : bool :=
  match rest with
  | EmptyString => true
  | String a EmptyString => Ascii.eqb a nl
  | _ => false
  end.

(** [re.match(r'^[A-Za-z0-9_-]{11}$', s)] as a truth value. *)
Definition re_match_id (s : string) : bool :=
  match class_repeat 11 s with
  | Some rest => at_dollar rest
  | None => false
  end.

(** The characters [urlsplit] strips from the left of a URL (C0 controls
    and the space), and those it deletes wherever they are (tab, line feed,
    carriage return). *)
Definition is_c0_or_space (a : ascii) : bool := Nat.leb (nat_of_ascii a) 32.

Definition is_tab_or_newline (a : ascii) : bool :=
  let n := nat_of_ascii a in Nat.eqb n 9 || Nat.eqb n 10 || Nat.eqb n 13.

Definition is_ascii_letter (a : ascii) : bool :=
  let n := nat_of_ascii a in between 65 90 n || between 97 122 n.

(** [scheme_chars]: letters, digits, [+], [-], [.]. *)
Definition is_scheme_char (a : ascii) : bool :=
  let n := nat_of_ascii a in
  is_ascii_letter a || between 48 57 n
  || Nat.eqb n 43 || Nat.eqb n 45 || Nat.eqb n 46.

(** The URL after its scheme: the text before the first [:] is a scheme, and
    is taken off with the colon, when it is not empty, begins with an ASCII
    letter and holds scheme characters only. *)
Definition after_scheme (url : string) : string :=
  match url, split1 ":" url with
  | String a _, (scheme, Some rest) =>
      if truthy scheme && is_ascii_letter a && all_chars is_scheme_char scheme
      then rest else url
  | _, _ => url
  end.

Definition is_netloc_end (a : ascii) : bool :=
  Ascii.eqb a "/" || Ascii.eqb a "?" || Ascii.eqb a "#".

(** [_splitnetloc(url, 2)], given the text after the two slashes: the
    network location, up to the first of [/], [?], [#], and the rest. *)
Fixpoint splitnetloc (s : string) : string * string :=
  match s with
  | EmptyString => (EmptyString, EmptyString)
  | String a s' =>
      if is_netloc_end a then (EmptyString, s)
      else let '(netloc, rest) := splitnetloc s' in (String a netloc, rest)
  end.

(** The URL after its network location.  [urlsplit] raises on a network
    location with one kind of square bracket and not the other; with both it
    checks the host between them (outside the model).  Its last check,
    [_checknetloc], looks for [/ ? # @ :] in the compatibility normal form of
    a network location that is not ASCII; no character from 128 to 255 has
    one of them in its normal form, so it lets every string of this model
    pass. *)
Definition after_netloc (url : string) : run string :=
  match url with
  | String a (String b r) =>
      if Ascii.eqb a "/" && Ascii.eqb b "/" then
        let '(netloc, rest) := splitnetloc r in
        if (contains "[" netloc && negb (contains "]" netloc))
           || (contains "]" netloc && negb (contains "[" netloc))
        then Raise ValueError
        else if contains "[" netloc && contains "]" netloc then Outside
        else Ret rest
      else Ret url
  | _ => Ret url
  end.

(** [urlparse(url).query] *)
Definition urlparse_query (url : string) : run string :=
  let url := without is_tab_or_newline (lstrip_of is_c0_or_space url) in
  url <- after_netloc (after_scheme url) ;;
  let url := fst (split1 "#" url) in
  Ret (match snd (split1 "?" url) with
       | Some query => query
       | None => EmptyString
       end).

Definition hex_value (a : ascii) : option nat :=
  let n := nat_of_ascii a in
  if between 48 57 n then Some (n - 48)
  else if between 65 70 n then Some (n - 55)
  else if between 97 102 n then Some (n - 87)
  else None.

(** The byte that [%hl] stands for, when [h] and [l] are hexadecimal. *)
Definition escape (h l : ascii) : option nat :=
  match hex_value h, hex_value l with
  | Some x, Some y => Some (16 * x + y)
  | _, _ => None
  end.

(** [unquote(s)], that is [unquote(s, 'utf-8', 'replace')]: every [%hl]
    becomes a byte, any other [%] stays, and the bytes are read as UTF-8.
    A byte below 128 is its character.  The bytes C2 and C3 followed by a
    byte from 80 to BF are the characters from 128 to 255.  Every other byte
    from 128 on belongs to a longer character or is replaced by U+FFFD, both
    above 255: the answer is [None] then.  (Characters of [s] that are not
    ASCII are kept, and end the run of bytes before them.) *)
Fixpoint unquote (s : string) : option string :=
  match s with
  | EmptyString => Some EmptyString
  | String c s' =>
      let keep := option_map (String c) (unquote s') in
      if Ascii.eqb c "%" then
        match s' with
        | String h (String l rest) =>
            match escape h l with
            | Some b =>
                if Nat.ltb b 128 then
                  option_map (String (ascii_of_nat b)) (unquote rest)
                else if Nat.eqb b 194 || Nat.eqb b 195 then
                  match rest with
                  | String c2 (String h2 (String l2 rest2)) =>
                      if Ascii.eqb c2 "%" then
                        match escape h2 l2 with
                        | Some b2 =>
                            if between 128 191 b2 then
                              option_map
                                (String (ascii_of_nat ((b - 192) * 64 + (b2 - 128))))
                                (unquote rest2)
                            else None
                        | None => None
                        end
                      else None
                  | _ => None
                  end
                else None
            | None => keep
            end
        | _ => keep
        end
      else keep
  end.

(** [parse_qsl(qs)] with its defaults: the fields between [&]; a field
    without [=] or with a blank value is dropped; [+] reads as a space; name
    and value are decoded. *)
Definition parse_field (field : string) : list (option string * option string) :=
  match split1 "=" field with
  | (name, Some value) =>
      if truthy value
      then [(unquote (replace "+" " " name), unquote (replace "+" " " value))]
      else []
  | (_, None) => []
  end.

Definition parse_qsl (qs : string) : list (option string * option string) :=
  flat_map parse_field (split "&" qs).

Definition is_name (key : string) (nv : option string * option string) : bool :=
  match fst nv with
  | Some name => String.eqb name key
  | None => false
  end.

(** [parse_qs(qs).get(key, [None])[0]]: the dictionary maps a name to its
    values in order of appearance, so this is the value of the first pair
    that carries the name.  (A name with a character above 255 is not
    [key].) *)
Definition parse_qs_get_first (key qs : string) : run (option string) :=
  match find (is_name key) (parse_qsl qs) with
  | Some (_, Some value) => Ret (Some value)
  | Some (_, None) => Outside
  | None => Ret None
  end.

End PyLib.

(** ** Identifier extractor *)
Module Extractor.
Import PyStr PyLib.

(** [url.split('/')[-1].split('?')[0]] *)
Definition last_segment (url : string) : string :=
  first (split "?" (final (split "/" url))).

Definition extract_video_id (url : string) : run (option string) :=
  if contains "youtu.be" url then
    Ret (Some (last_segment url))
  else if contains "youtube.com/watch" url then
    query <- urlparse_query url ;;
    parse_qs_get_first "v" query
  else if contains "youtube.com/shorts" url || contains "youtube.com/embed" url then
    Ret (Some (last_segment url))
  else if re_match_id url then
    Ret (Some url)
  else Ret None.

(** [not video_id]: [None] and the empty string are both falsy. *)
Definition id_truthy (video_id : option string) : bool :=
  match video_id with
  | Some s => truthy s
  | None => false
  end.

End Extractor.

(** ** The browser as the script sees it *)

(** A DOM element: its visible text and what a CSS query below it finds. *)
#[local] Unset Elimination Schemes.
Inductive WebElement : Type :=
  Element (text : string) (find_elements : string -> list WebElement).

#[local] Set Elimination Schemes.

Definition text (e : WebElement) : string :=
  match e with Element t _ => t end.

Definition find_elements (e : WebElement) : string -> list WebElement :=
  match e with Element _ f => f end.

(** One run's surroundings: what a CSS query on the page finds once the
    video page is loaded, the comment threads that the query for
    [ytd-comment-thread-renderer] finds once the page has been scrolled [n]
    times (the loop asks once per pass, and [n] is its [scroll_count]), and
    the two readings of the clock.  Clicks (the consent dialog, the sort
    menu) and scripts (the scroll to the comments section, the scroll of
    each pass) change what the browser shows; a session stands for the
    answers of the browser after them, and these calls are taken to
    succeed. *)
Record Session : Type := {
  page_elements : string -> list WebElement;
  comment_threads : nat -> list WebElement;
  scrape_date : string;
  file_stamp : string
}.

(** The dictionaries of the script as records.  Two keys are renamed to keep
    them apart: ["likes"] of the video is [video_likes], ["text"] of a
    comment is [comment_text]. *)
Record VideoInfo : Type := {
  video_id : string;
  title : string;
  channel : string;
  views : string;
  upload_date : string;
  video_likes : string;
  url : string
}.

Record CommentRecord : Type := {
  author : string;
  comment_text : string;
  likes : string;
  timestamp : string
}.

Record Metadata : Type := {
  total_comments_collected : nat;
  sort_order : string;
  scrape_date_label : string
}.

Record ScrapeResult : Type := {
  video_info : VideoInfo;
  comments : list CommentRecord;
  metadata : Metadata
}.

(** ** The scraper *)
Module Scraper.
Import PyStr PyLib Extractor.

(** *** Field extractor *)

Definition _get_text (self : Session) (selector default : string) : string :=
  match page_elements self selector with
  | e :: _ => text e
  | [] => default
  end.

Definition _get_element_text (parent : WebElement) (selector : string) : string :=
  match find_elements parent selector with
  | e :: _ => strip (text e)
  | [] => EmptyString
  end.

(** [x or d] on strings *)
Definition or_else (x d : string) : string := if truthy x then x else d.

Definition _extract_comment (comment_element : WebElement) : option CommentRecord :=
  let author := _get_element_text comment_element "#author-text" in
  let text := _get_element_text comment_element "#content-text" in
  let likes := or_else (_get_element_text comment_element "#vote-count-middle") "0" in
  let timestamp := or_else (_get_element_text comment_element ".published-time-text") "Unknown" in
  if truthy author && truthy text then
    Some {| author := author; comment_text := text; likes := likes; timestamp := timestamp |}
  else None.

(** *** Video information *)

Definition get_video_info (self : Session) (video_url : string)
    : run (option VideoInfo) :=
  video_id <- extract_video_id video_url ;;
  match video_id with
  | Some id =>
      if truthy id then
        let url := ("https://www.youtube.com/watch?v=" ++ id)%string in
        Ret (Some
          {| video_id := id;
             title := _get_text self "h1 yt-formatted-string" "Unknown Title";
             channel := _get_text self "ytd-channel-name a, #channel-name a" "Unknown Channel";
             views := _get_text self "span.view-count" "Unknown Views";
             upload_date := _get_text self "#info-strings yt-formatted-string" "Unknown Date";
             video_likes := _get_text self "ytd-toggle-button-renderer yt-formatted-string" "Unknown Likes";
             url := url |})
      else Ret None
  | None => Ret None
  end.

(** *** Collection loop *)

Record LoopState : Type := {
  collected : list CommentRecord;
  last_comment_count : nat;
  consecutive_unchanged : nat;
  scroll_count : nat
}.

Definition initial : LoopState :=
  {| collected := []; last_comment_count := 0;
     consecutive_unchanged := 0; scroll_count := 0 |}.

(** [max_comments and len(comments) >= max_comments]; 0 is falsy. *)
Definition limit_reached (max_comments : option nat) (comments : list CommentRecord) : bool :=
  match max_comments with
  | Some m => negb (Nat.eqb m 0) && Nat.leb m (length comments)
  | None => false
  end.

(** [not max_comments or len(comments) < max_comments] *)
Definition under_limit (max_comments : option nat) (comments : list CommentRecord) : bool :=
  match max_comments with
  | Some m => Nat.eqb m 0 || Nat.ltb (length comments) m
  | None => true
  end.

Definition guard (max_comments : option nat) (st : LoopState) : bool :=
  under_limit max_comments (collected st)
  && Nat.ltb (scroll_count st) 30
  && Nat.ltb (consecutive_unchanged st) 3.

(** [min(len(comment_elements), len(comments) + 10, max_comments or inf)] *)
Definition end_index (max_comments : option nat) (found have : nat) : nat :=
  match max_comments with
  | Some m => if Nat.eqb m 0 then Nat.min found (have + 10)
              else Nat.min (Nat.min found (have + 10)) m
  | None => Nat.min found (have + 10)
  end.

(** [range(a, b)] *)
Definition range (a b : nat) : list nat := seq a (b - a).

(** The [for] loop over the window.  Besides the comments it answers the
    indices whose element was handed to [_extract_comment], in order. *)
Fixpoint extract_range (max_comments : option nat) (comment_elements : list WebElement)
    (indices : list nat) (comments : list CommentRecord)
    : run (list CommentRecord * list nat) :=
  match indices with
  | [] => Ret (comments, [])
  | i :: rest =>
      match nth_error comment_elements i with
      | None => Raise IndexError
      | Some el =>
          match _extract_comment el with
          | Some comment_data =>
              let comments' := comments ++ [comment_data] in
              if limit_reached max_comments comments' then Ret (comments', [i])
              else r <- extract_range max_comments comment_elements rest comments' ;;
                   Ret (fst r, i :: snd r)
          | None =>
              r <- extract_range max_comments comment_elements rest comments ;;
              Ret (fst r, i :: snd r)
          end
      end
  end.

(** What one pass through the body of the [while] leaves behind. *)
Record Pass : Type := {
  next : LoopState;
  broke : bool;
  visited : list nat
}.

Definition loop_body (self : Session) (max_comments : option nat) (st : LoopState)
    : run Pass :=
  let comment_elements := comment_threads self (scroll_count st) in
  let grew := Nat.ltb (last_comment_count st) (length comment_elements) in
  let last' := if grew then length comment_elements else last_comment_count st in
  let unchanged' := if grew then 0 else S (consecutive_unchanged st) in
  let start_index := length (collected st) in
  let end_idx := end_index max_comments (length comment_elements) (length (collected st)) in
  r <- extract_range max_comments comment_elements (range start_index end_idx) (collected st) ;;
  if limit_reached max_comments (fst r) then
    Ret {| next := {| collected := fst r; last_comment_count := last';
                      consecutive_unchanged := unchanged';
                      scroll_count := scroll_count st |};
           broke := true; visited := snd r |}
  else
    Ret {| next := {| collected := fst r; last_comment_count := last';
                      consecutive_unchanged := unchanged';
                      scroll_count := S (scroll_count st) |};
           broke := false; visited := snd r |}.

Fixpoint while_loop (fuel : nat) (self : Session) (max_comments : option nat)
    (st : LoopState) : run LoopState :=
  if guard max_comments st then
    match fuel with
    | 0 => Unfinished
    | S fuel' =>
        p <- loop_body self max_comments st ;;
        if broke p then Ret (next p)
        else while_loop fuel' self max_comments (next p)
    end
  else Ret st.

(** The guard needs [scroll_count < 30] and every pass that does not break
    adds one to it: 30 passes are all the loop can make. *)
Definition collect (self : Session) (max_comments : option nat) : run LoopState :=
  while_loop 30 self max_comments initial.

(** [comments[:max_comments] if max_comments else comments] *)
Definition truncate (max_comments : option nat) (comments : list CommentRecord)
    : list CommentRecord :=
  match max_comments with
  | Some m => if Nat.eqb m 0 then comments else firstn m comments
  | None => comments
  end.

Definition scrape_comments (self : Session) (video_url : string)
    (max_comments : option nat) (sort_by : string) : run (option ScrapeResult) :=
  video_info <- get_video_info self video_url ;;
  match video_info with
  | None => Ret None
  | Some info =>
      st <- collect self max_comments ;;
      let comments := collected st in
      Ret (Some
        {| video_info := info;
           comments := truncate max_comments comments;
           metadata :=
             {| total_comments_collected :=
                  match max_comments with
                  | Some m => if Nat.eqb m 0 then length comments
                              else Nat.min (length comments) m
                  | None => length comments
                  end;
                sort_order := sort_by;
                scrape_date_label := scrape_date self |} |})
  end.

(** *** Exporters and the command line *)

Inductive FileWrite : Type :=
| JsonFile (filename : string) (data : ScrapeResult)
| CsvFile (filename : string) (rows : list CommentRecord).

Definition save_to_json (data : ScrapeResult) (filename : string) : list FileWrite :=
  [JsonFile filename data].

Definition save_to_csv (data : ScrapeResult) (filename : string) : list FileWrite :=
  match comments data with
  | [] => []
  | _ :: _ => [CsvFile filename (comments data)]
  end.

(** The answers to the prompts.  (The fifth prompt chooses between Edge and
    Chrome, that is which browser the session is held with.) *)
Record Inputs : Type := {
  in_video_url : string;
  in_max_comments : string;
  in_sort_option : string;
  in_output_format : string
}.

(** [int(s) if s and s.isdigit() else None]; [int] raises on a digit
    character that is not decimal, and on more than 4300 digits. *)
Definition parse_max_comments (s : string) : run (option nat) :=
  if truthy s && isdigit s then
    if all_chars is_decimal s && Nat.leb (String.length s) 4300
    then Ret (Some (decimal_value 0 s))
    else Raise ValueError
  else Ret None.

Definition one_of (s : string) (l : list string) : bool :=
  existsb (String.eqb s) l.

(** The files written, and how the call ended. *)
Definition main (self : Session) (inp : Inputs) : list FileWrite * run unit :=
  let sort_option := or_else (lower (in_sort_option inp)) "top" in
  let output_format := or_else (lower (in_output_format inp)) "json" in
  match parse_max_comments (in_max_comments inp) with
  | Ret max_comments =>
      match extract_video_id (in_video_url inp) with
      | Ret found =>
          let video_id :=
            match found with
            | Some id => or_else id "video"
            | None => "video"
            end in
          let base_filename :=
            ("yt_comments_" ++ video_id ++ "_" ++ file_stamp self)%string in
          match scrape_comments self (in_video_url inp) max_comments sort_option with
          | Ret (Some data) =>
              ((if one_of output_format ["json"; "both"]
                then save_to_json data (base_filename ++ ".json")%string else [])
               ++
               (if one_of output_format ["csv"; "both"]
                then save_to_csv data (base_filename ++ ".csv")%string else []),
               Ret tt)
          | Ret None => ([], Ret tt)
          | Raise e => ([], Raise e)
          | Unfinished => ([], Unfinished)
          | Outside => ([], Outside)
          end
      | Raise e => ([], Raise e)
      | Unfinished => ([], Unfinished)
      | Outside => ([], Outside)
      end
  | Raise e => ([], Raise e)
  | Unfinished => ([], Unfinished)
  | Outside => ([], Outside)
  end.

End Scraper.

Import PyStr PyLib Extractor Scraper.

(** ** Sample pages *)
Module Samples.

(** The identifier [abcEFG01234] followed by a line feed. *)
Definition id_with_line_feed : string :=
  String.append "abcEFG01234" (String nl EmptyString).

Definition leaf (t : string) : WebElement := Element t (fun _ => []).

(** A comment thread showing the given author and text (the child element
    is absent when the string is empty), without like count and without
    time stamp. *)
Definition thread (author text : string) : WebElement :=
  Element EmptyString (fun selector =>
    if String.eqb selector "#author-text" then
      (if truthy author then [leaf author] else [])
    else if String.eqb selector "#content-text" then
      (if truthy text then [leaf text] else [])
    else []).

Definition bob : WebElement := thread "bob" " hi ".
Definition ann : WebElement := thread "ann" "yo".
Definition anonymous : WebElement := thread "" "x".

(** A session whose comment query answers [threads n] after [n] scrolls
    and whose page lookups find nothing. *)
Definition session (threads : nat -> list WebElement) : Session :=
  {| page_elements := fun _ => [];
     comment_threads := threads;
     scrape_date := "2024-01-01 00:00:00";
     file_stamp := "20240101_0000" |}.

(** A page that has all its threads from the start. *)
Definition static_page (threads : list WebElement) : Session :=
  session (fun _ => threads).

(** A page that shows [bob] alone for five scrolls and [ann] after that. *)
Definition slow_page : Session :=
  session (fun n => if Nat.ltb n 5 then [bob] else [bob; ann]).

(** A page on which every scroll brings one more thread. *)
Definition endless_page : Session :=
  session (fun n => repeat bob (S n)).

(** A page that gains one thread every third scroll, and shows a hundred
    at the last query the loop can make. *)
Definition late_page : Session :=
  session (fun n => if Nat.ltb n 29 then repeat bob (1 + n / 3) else repeat bob 100).

(** A watch address whose host opens a square bracket and does not close
    it. *)
Definition unbalanced_url : string := "https://[youtube.com/watch?v=abcEFG01234".

(** A page whose title element reads [" a "]. *)
Definition titled_page : Session :=
  {| page_elements := fun selector =>
       if String.eqb selector "h1 yt-formatted-string" then [leaf " a "] else [];
     comment_threads := fun _ => [];
     scrape_date := "2024-01-01 00:00:00";
     file_stamp := "20240101_0000" |}.

End Samples.

(** ** Vocabulary of the properties *)
Module Spec.

(** The identifier pattern: exactly 11 characters of [[A-Za-z0-9_-]]. *)
Definition is_identifier (s : string) : bool :=
  Nat.eqb (String.length s) 11 && all_chars is_id_char s.

(** The URL gives an identifier that [get_video_info] accepts. *)
Definition resolves (url : string) : bool :=
  match extract_video_id url with
  | Ret found => id_truthy found
  | _ => false
  end.

(** The markers by which the extractor recognises a URL. *)
Definition has_marker (url : string) : bool :=
  contains "youtu.be" url
  || contains "youtube.com/watch" url
  || contains "youtube.com/shorts" url
  || contains "youtube.com/embed" url.

Fixpoint ends_with_newline (s : string) : bool :=
  match s with
  | EmptyString => false
  | String a EmptyString => Ascii.eqb a nl
  | String _ s' => ends_with_newline s'
  end.

(** Trimmed text: no white space at either end. *)
Definition starts_with_space (s : string) : bool :=
  match s with
  | EmptyString => false
  | String a _ => is_space a
  end.

Fixpoint ends_with_space (s : string) : bool :=
  match s with
  | EmptyString => false
  | String a EmptyString => is_space a
  | String _ s' => ends_with_space s'
  end.

Definition trimmed (s : string) : Prop :=
  starts_with_space s = false /\ ends_with_space s = false.

(** A comment element from which a record can be made, and how many of
    them a list of elements holds. *)
Definition is_valid (e : WebElement) : bool :=
  match _extract_comment e with
  | Some _ => true
  | None => false
  end.

Definition valid_count (elements : list WebElement) : nat :=
  length (filter is_valid elements).

(** The cap as an upper bound: nothing to say when none is set. *)
Definition within_cap (max_comments : option nat) (comments : list CommentRecord) : Prop :=
  match max_comments with
  | Some m => m <> 0 -> length comments <= m
  | None => True
  end.

(** The states the loop passes through: the initial one, and the one each
    pass leaves that the guard lets begin. *)
Inductive reachable (self : Session) (max_comments : option nat) : LoopState -> Prop :=
| reach_initial : reachable self max_comments initial
| reach_pass st p :
    reachable self max_comments st ->
    guard max_comments st = true ->
    loop_body self max_comments st = Ret p ->
    reachable self max_comments (next p).

(** The number of comments a finished run hands over. *)
Definition handed_over (r : run (option ScrapeResult)) : option nat :=
  match r with
  | Ret (Some res) => Some (length (comments res))
  | _ => None
  end.

(** While the page does not grow: after the first pass the count seen last
    is that of the first query, and every later pass is a stall. *)
Definition stall_inv (self : Session) (max_comments : option nat) (st : LoopState) : Prop :=
  let first_found := length (comment_threads self 0) in
  limit_reached max_comments (collected st) = true
  \/ (scroll_count st = 0 /\ consecutive_unchanged st = 0 /\ last_comment_count st = 0)
  \/ (1 <= scroll_count st
      /\ last_comment_count st = first_found
      /\ scroll_count st
         = consecutive_unchanged st + (if Nat.eqb first_found 0 then 0 else 1)
      /\ consecutive_unchanged st <= 3).

(** While the page grows on every scroll: the stall counter never passes 1. *)
Definition growth_inv (self : Session) (st : LoopState) : Prop :=
  scroll_count st <= 30
  /\ last_comment_count st <= length (comment_threads self (scroll_count st))
  /\ (last_comment_count st < length (comment_threads self (scroll_count st))
      \/ consecutive_unchanged st = 0)
  /\ consecutive_unchanged st <= 1.

(** Under the cap 25, on a page whose threads are all valid and never get
    fewer: the count seen last is that of the latest query, nothing beyond it
    is collected, and [u] passes in a row without growth have brought the
    collection to the least of that count and [10 * (u + 1)]. *)
Definition shown_inv (self : Session) (st : LoopState) : Prop :=
  let k := length (collected st) in
  let shown := last_comment_count st in
  k <= shown /\ k <= 25
  /\ consecutive_unchanged st <= 3 /\ scroll_count st <= 30
  /\ shown <= length (comment_threads self (scroll_count st))
  /\ (if limit_reached (Some 25) (collected st)
      then shown = length (comment_threads self (scroll_count st))
      else (scroll_count st = 0 /\ shown = 0 /\ consecutive_unchanged st = 0)
           \/ (exists q, scroll_count st = S q
                         /\ shown = length (comment_threads self q)))
  /\ (limit_reached (Some 25) (collected st) = true
      \/ Nat.min shown (10 * (consecutive_unchanged st + 1)) <= k).

End Spec.

Import Spec.

(** ** Further vocabulary *)
Module More.

(** [c in s] for one character. *)
Fixpoint has_char (c : ascii) (s : string) : bool :=
  match s with
  | EmptyString => false
  | String a s' => Ascii.eqb a c || has_char c s'
  end.

(** A reading that gives [_get_element_text] nothing: no element matches,
    or the first match shows white space only. *)
Definition blank_reading (parent : WebElement) (selector : string) : bool :=
  match find_elements parent selector with
  | [] => true
  | e :: _ => all_chars is_space (text e)
  end.

(** The records of the valid elements of a list, in its order. *)
Definition record_list (elements : list WebElement) : list CommentRecord :=
  flat_map (fun e => match _extract_comment e with
                     | Some r => [r]
                     | None => []
                     end) elements.

(** A record made from an element that the comment query has answered
    during the run. *)
Definition from_page (self : Session) (r : CommentRecord) : Prop :=
  exists n e, n < 30 /\ In e (comment_threads self n) /\ _extract_comment e = Some r.

(** [str(n)]: the decimal numeral of a natural number. *)
Definition str_of_nat (n : nat) : string :=
  DecimalString.NilEmpty.string_of_uint (Nat.to_uint n).

End More.

Import More.

(** ** Properties *)

(** Splits a conjunction into its parts, and nothing else. *)
Ltac conjs := repeat match goal with |- _ /\ _ => split end.

(** *** The [for] loop over the window *)
Section ExtractRange.

Variable max_comments : option nat.
Variable comment_elements : list WebElement.

Lemma limit_reached_under_limit comments :
  under_limit max_comments comments = negb (limit_reached max_comments comments).
Proof.
  unfold under_limit, limit_reached. destruct max_comments as [m|]; [|reflexivity].
  destruct (Nat.eqb_spec m 0); simpl; [reflexivity|].
  destruct (Nat.ltb_spec (length comments) m), (Nat.leb_spec m (length comments));
    simpl; try reflexivity; lia.
Qed.

Lemma limit_reached_true comments :
  limit_reached max_comments comments = true <->
  exists m, max_comments = Some m /\ m <> 0 /\ m <= length comments.
Proof.
  unfold limit_reached. destruct max_comments as [m|].
  - destruct (Nat.eqb_spec m 0), (Nat.leb_spec m (length comments)); simpl; split;
      try discriminate; try (intros (m' & E & ? & ?); injection E as <-; lia).
    intros _. exists m. auto.
  - split; [discriminate|]. intros (m & E & _). discriminate.
Qed.

Lemma limit_reached_false comments :
  limit_reached max_comments comments = false ->
  forall m, max_comments = Some m -> m <> 0 -> length comments < m.
Proof.
  intros H m E Hm. destruct (Nat.lt_ge_cases (length comments) m) as [|Hge]; [assumption|].
  assert (limit_reached max_comments comments = true) as Ht
    by (apply limit_reached_true; exists m; auto).
  congruence.
Qed.

Lemma limit_false_within_cap comments :
  limit_reached max_comments comments = false -> within_cap max_comments comments.
Proof.
  unfold within_cap, limit_reached. destruct max_comments as [m|]; [|trivial].
  intros H Hm. destruct (Nat.eqb_spec m 0); [contradiction|].
  simpl in H. apply Nat.leb_gt in H. lia.
Qed.

Lemma limit_false_within_cap_snoc comments data :
  limit_reached max_comments comments = false -> within_cap max_comments (comments ++ [data]).
Proof.
  unfold within_cap, limit_reached. destruct max_comments as [m|]; [|trivial].
  intros H Hm. destruct (Nat.eqb_spec m 0); [contradiction|].
  simpl in H. apply Nat.leb_gt in H. rewrite length_app. simpl. lia.
Qed.

(** The loop raises nothing when its indices are inside the list; it
    visits a prefix of them, appends at most one record per visit and
    stops at the cap. *)
Lemma extract_range_ok indices :
  forall comments,
    (forall i, In i indices -> i < length comment_elements) ->
    exists comments' seen,
      extract_range max_comments comment_elements indices comments
        = Ret (comments', seen)
      /\ (exists rest, indices = seen ++ rest)
      /\ length comments <= length comments'
      /\ length comments' <= length comments + length seen
      /\ (limit_reached max_comments comments = false -> within_cap max_comments comments').
Proof.
  induction indices as [|i rest IH]; intros comments Hin; simpl.
  - exists comments, []. simpl. conjs; try lia.
    + reflexivity.
    + exists []. reflexivity.
    + apply limit_false_within_cap.
  - destruct (nth_error comment_elements i) as [el|] eqn:Hnth.
    2:{ apply nth_error_None in Hnth. specialize (Hin i (or_introl eq_refl)). lia. }
    assert (Hrest : forall j, In j rest -> j < length comment_elements)
      by (intros j Hj; apply Hin; right; exact Hj).
    destruct (_extract_comment el) as [data|].
    + destruct (limit_reached max_comments (comments ++ [data])) eqn:Hlim.
      * exists (comments ++ [data]), [i]. rewrite length_app. simpl.
        conjs; try lia.
        -- reflexivity.
        -- exists rest. reflexivity.
        -- apply limit_false_within_cap_snoc.
      * destruct (IH (comments ++ [data]) Hrest) as (c & v & -> & (r & ->) & Hlo & Hhi & Hcap).
        rewrite length_app in Hlo, Hhi. simpl in *.
        exists c, (i :: v). simpl. conjs; try lia.
        -- reflexivity.
        -- exists r. reflexivity.
        -- intros _. apply Hcap. exact Hlim.
    + destruct (IH comments Hrest) as (c & v & -> & (r & ->) & Hlo & Hhi & Hcap).
      simpl. exists c, (i :: v). simpl. conjs; try lia.
      * reflexivity.
      * exists r. reflexivity.
      * exact Hcap.
Qed.

End ExtractRange.

(** *** One pass and the whole loop *)
Section Loop.

Variable self : Session.
Variable max_comments : option nat.

Lemma range_bounds a b i : In i (range a b) -> a <= i < b.
Proof. unfold range. rewrite in_seq. lia. Qed.

Lemma range_length a b : length (range a b) = b - a.
Proof. unfold range. apply length_seq. Qed.

Lemma end_index_bounds found have :
  end_index max_comments found have <= found
  /\ end_index max_comments found have <= have + 10.
Proof.
  unfold end_index. destruct max_comments as [m|]; [destruct (Nat.eqb m 0)|]; lia.
Qed.

Lemma guard_true st :
  guard max_comments st = true ->
  limit_reached max_comments (collected st) = false
  /\ scroll_count st < 30 /\ consecutive_unchanged st < 3.
Proof.
  unfold guard. rewrite limit_reached_under_limit, !andb_true_iff, negb_true_iff.
  intros [[H1 H2] H3]. apply Nat.ltb_lt in H2, H3. auto.
Qed.

Lemma guard_false st :
  guard max_comments st = false ->
  limit_reached max_comments (collected st) = true
  \/ 30 <= scroll_count st \/ 3 <= consecutive_unchanged st.
Proof.
  unfold guard. rewrite limit_reached_under_limit, !andb_false_iff, negb_false_iff.
  intros [[H|H]|H]; auto; apply Nat.ltb_ge in H; auto.
Qed.

Lemma limit_reached_stops st :
  limit_reached max_comments (collected st) = true -> guard max_comments st = false.
Proof.
  intros H. unfold guard. rewrite limit_reached_under_limit, H. reflexivity.
Qed.

(** A pass always completes, and this is all it does. *)
Lemma loop_body_ok st :
  let found := length (comment_threads self (scroll_count st)) in
  let have := length (collected st) in
  let grew := Nat.ltb (last_comment_count st) found in
  exists p,
    loop_body self max_comments st = Ret p
    /\ broke p = limit_reached max_comments (collected (next p))
    /\ scroll_count (next p)
       = (if broke p then scroll_count st else S (scroll_count st))
    /\ last_comment_count (next p)
       = (if grew then found else last_comment_count st)
    /\ consecutive_unchanged (next p)
       = (if grew then 0 else S (consecutive_unchanged st))
    /\ (exists rest,
          range have (end_index max_comments found have) = visited p ++ rest)
    /\ have <= length (collected (next p))
    /\ length (collected (next p)) <= have + length (visited p)
    /\ (limit_reached max_comments (collected st) = false ->
        within_cap max_comments (collected (next p))).
Proof.
  intros found have grew. unfold loop_body.
  destruct (extract_range_ok max_comments (comment_threads self (scroll_count st))
              (range have (end_index max_comments found have)) (collected st))
    as (c & v & E & Hpre & Hlo & Hhi & Hcap).
  { intros i Hi. apply range_bounds in Hi.
    pose proof (end_index_bounds found have). fold found. lia. }
  fold found have. rewrite E. simpl.
  destruct (limit_reached max_comments c) eqn:Hlim; eexists; (split; [reflexivity|]);
    simpl; conjs; auto.
Qed.

(** The same, for a pass known by its result. *)
Lemma loop_body_facts st p :
  loop_body self max_comments st = Ret p ->
  let found := length (comment_threads self (scroll_count st)) in
  let have := length (collected st) in
  let grew := Nat.ltb (last_comment_count st) found in
  broke p = limit_reached max_comments (collected (next p))
  /\ scroll_count (next p)
     = (if broke p then scroll_count st else S (scroll_count st))
  /\ last_comment_count (next p)
     = (if grew then found else last_comment_count st)
  /\ consecutive_unchanged (next p)
     = (if grew then 0 else S (consecutive_unchanged st)).
Proof.
  intros E. destruct (loop_body_ok st) as (p' & E' & H1 & H2 & H3 & H4 & _).
  rewrite E in E'. injection E' as <-. simpl. auto.
Qed.

(** The rule of the loop: a property that every pass keeps holds when the
    loop ends, the loop does end, and the guard is false then. *)
Lemma while_invariant (Inv : LoopState -> Prop) :
  (forall st p, Inv st -> guard max_comments st = true ->
                loop_body self max_comments st = Ret p -> Inv (next p)) ->
  forall fuel st,
    Inv st -> 30 - scroll_count st <= fuel ->
    exists st',
      while_loop fuel self max_comments st = Ret st'
      /\ Inv st' /\ guard max_comments st' = false.
Proof.
  intros Hkeep. induction fuel as [|fuel IH]; intros st HI Hfuel; simpl;
    destruct (guard max_comments st) eqn:G.
  - apply guard_true in G. lia.
  - exists st. auto.
  - destruct (loop_body_ok st) as (p & E & Hb & Hs & _).
    rewrite E. simpl. pose proof (Hkeep st p HI G E) as HI'.
    destruct (broke p) eqn:B.
    + exists (next p). conjs; auto. apply limit_reached_stops. congruence.
    + apply IH; [exact HI'|]. rewrite Hs. lia.
  - exists st. auto.
Qed.

(** The loop ends on every page. *)
Lemma collect_total :
  exists st, collect self max_comments = Ret st /\ guard max_comments st = false.
Proof.
  destruct (while_invariant (fun _ => True) (fun _ _ _ _ _ => I) 30 initial I)
    as (st & E & _ & G); [simpl; lia|].
  exists st. auto.
Qed.

(** What it has collected stays within the cap. *)
Lemma collect_within_cap :
  exists st, collect self max_comments = Ret st
             /\ within_cap max_comments (collected st).
Proof.
  assert (Hkeep : forall st p,
             within_cap max_comments (collected st) ->
             guard max_comments st = true ->
             loop_body self max_comments st = Ret p ->
             within_cap max_comments (collected (next p))).
  { intros st p _ G E. apply guard_true in G. destruct G as (G & _).
    destruct (loop_body_ok st) as (p' & E' & H). rewrite E in E'. injection E' as <-.
    apply H. exact G. }
  assert (H0 : within_cap max_comments (collected initial)).
  { unfold within_cap. simpl. destruct max_comments; [lia|exact I]. }
  destruct (while_invariant _ Hkeep 30 initial H0) as (st & E & H & _); [simpl; lia|].
  exists st. auto.
Qed.

End Loop.

(** *** The stop conditions of the loop *)

Lemma never_more_than_first (self : Session) :
  (forall n, length (comment_threads self (S n)) <= length (comment_threads self n)) ->
  forall n, length (comment_threads self n) <= length (comment_threads self 0).
Proof.
  intros H. induction n as [|n IH]; [lia|]. specialize (H n). lia.
Qed.

Lemma stall_inv_kept (self : Session) (max_comments : option nat) :
  (forall n, length (comment_threads self (S n)) <= length (comment_threads self n)) ->
  forall st p,
    stall_inv self max_comments st -> guard max_comments st = true ->
    loop_body self max_comments st = Ret p -> stall_inv self max_comments (next p).
Proof.
  intros Hmono st p HI G E.
  apply guard_true in G. destruct G as (Hlim & Hs & Hu).
  destruct (loop_body_facts self max_comments st p E) as (Hb & Hsc & Hl & Hc).
  pose proof (never_more_than_first self Hmono (scroll_count st)) as Hle.
  unfold stall_inv in *. rewrite <- Hb, Hsc, Hl, Hc.
  destruct (broke p); [left; reflexivity|]. right. right.
  destruct HI as [HI|[(H0 & H1 & H2)|(H0 & H1 & H2 & H3)]]; [congruence| |].
  - rewrite H0 in *. rewrite H1, H2.
    destruct (Nat.ltb_spec 0 (length (comment_threads self 0))) as [Hpos|Hz].
    + destruct (Nat.eqb_spec (length (comment_threads self 0)) 0); lia.
    + assert (length (comment_threads self 0) = 0) as -> by lia. simpl. lia.
  - rewrite H1. destruct (Nat.ltb_spec (length (comment_threads self 0))
                            (length (comment_threads self (scroll_count st)))); lia.
Qed.

(** C2, as the code has it.  On a page whose comment-thread count never
    increases from one query to the next, the loop ends, and when it has not
    ended on the cap it ends with [consecutive_unchanged] = 3, that is after
    exactly three passes without growth: pass 4 when the first query found
    threads, pass 3 when it found none. *)
Theorem stalled_page_stops_after_three (self : Session) (max_comments : option nat) :
  (forall n, length (comment_threads self (S n)) <= length (comment_threads self n)) ->
  exists st,
    collect self max_comments = Ret st
    /\ (limit_reached max_comments (collected st) = true
        \/ (consecutive_unchanged st = 3
            /\ scroll_count st
               = if Nat.eqb (length (comment_threads self 0)) 0 then 3 else 4)).
Proof.
  intros Hmono.
  destruct (while_invariant self max_comments (stall_inv self max_comments)
              (stall_inv_kept self max_comments Hmono) 30 initial)
    as (st & E & HI & G).
  - right. left. auto.
  - simpl. lia.
  - exists st. split; [exact E|].
    apply guard_false in G. unfold stall_inv in HI.
    destruct HI as [HI|[(H0 & H1 & H2)|(H0 & H1 & H2 & H3)]]; [left; exact HI| |].
    + destruct G as [G|[G|G]]; [left; exact G|lia|lia].
    + destruct G as [G|[G|G]]; [left; exact G| |];
        right; destruct (Nat.eqb (length (comment_threads self 0)) 0); lia.
Qed.

(** The page of the witness never grows, and no cap is set. *)
Lemma stalled_page_stops_after_three_witness :
  exists st,
    collect (Samples.static_page [Samples.bob]) None = Ret st
    /\ (limit_reached None (collected st) = true
        \/ (consecutive_unchanged st = 3 /\ scroll_count st = 4)).
Proof.
  apply (stalled_page_stops_after_three (Samples.static_page [Samples.bob]) None).
  intros n. simpl. lia.
Defined.

(** C2 as stated fails when a cap is set: one valid thread and a cap of 1
    end the loop in its first pass, before any pass without growth. *)
Lemma cap_stops_before_any_stall :
  (forall n, length (comment_threads (Samples.static_page [Samples.bob]) (S n))
             <= length (comment_threads (Samples.static_page [Samples.bob]) n))
  /\ exists st,
       collect (Samples.static_page [Samples.bob]) (Some 1) = Ret st
       /\ consecutive_unchanged st = 0 /\ scroll_count st = 0.
Proof.
  split; [intros n; simpl; lia|]. eexists. split; [reflexivity|]. split; reflexivity.
Qed.

Lemma growth_inv_kept (self : Session) (max_comments : option nat) :
  (max_comments = None \/ max_comments = Some 0) ->
  (forall n, length (comment_threads self n) < length (comment_threads self (S n))) ->
  forall st p,
    growth_inv self st -> guard max_comments st = true ->
    loop_body self max_comments st = Ret p -> growth_inv self (next p).
Proof.
  intros Hcap Hgrow st p (H1 & H2 & H3 & H4) G E.
  apply guard_true in G. destruct G as (_ & Hs & Hu).
  destruct (loop_body_facts self max_comments st p E) as (Hb & Hsc & Hl & Hc).
  assert (broke p = false) as Hnb.
  { rewrite Hb. destruct Hcap as [-> | ->]; reflexivity. }
  rewrite Hnb in Hsc. unfold growth_inv. rewrite Hsc, Hl, Hc.
  specialize (Hgrow (scroll_count st)).
  destruct (Nat.ltb_spec (last_comment_count st)
              (length (comment_threads self (scroll_count st)))); lia.
Qed.

(** C3.  With no cap (none given, or 0) and a page on which every scroll
    brings more threads, the loop ends with [scroll_count] = 30: it is the
    scroll ceiling that stops it, the stall counter being below 3. *)
Theorem endless_page_stops_at_thirty (self : Session) (max_comments : option nat) :
  (max_comments = None \/ max_comments = Some 0) ->
  (forall n, length (comment_threads self n) < length (comment_threads self (S n))) ->
  exists st,
    collect self max_comments = Ret st
    /\ scroll_count st = 30
    /\ consecutive_unchanged st < 3.
Proof.
  intros Hcap Hgrow.
  destruct (while_invariant self max_comments (growth_inv self)
              (growth_inv_kept self max_comments Hcap Hgrow) 30 initial)
    as (st & E & (H1 & H2 & H3 & H4) & G).
  - unfold growth_inv. simpl. lia.
  - simpl. lia.
  - exists st. split; [exact E|]. apply guard_false in G.
    destruct G as [G|[G|G]]; [|lia|lia].
    destruct Hcap as [-> | ->]; discriminate G.
Qed.

Lemma endless_page_stops_at_thirty_witness :
  exists st,
    collect Samples.endless_page None = Ret st
    /\ scroll_count st = 30
    /\ consecutive_unchanged st < 3.
Proof.
  apply (endless_page_stops_at_thirty Samples.endless_page None).
  - left. reflexivity.
  - intros n. simpl. rewrite !repeat_length. lia.
Defined.

(** *** The extraction window *)

Lemma prefix_length {A : Type} (l seen rest : list A) :
  l = seen ++ rest -> length seen <= length l.
Proof. intros ->. rewrite length_app. lia. Qed.

(** Twenty-five threads at the first query: the first pass takes ten. *)
Example first_pass_takes_ten :
  exists p,
    loop_body (Samples.static_page (repeat Samples.bob 25)) None initial = Ret p
    /\ visited p = seq 0 10
    /\ length (collected (next p)) = 10.
Proof. eexists. split; [reflexivity|]. split; reflexivity. Qed.

(** *** The cap *)

(** On valid elements only, the [for] loop takes its whole window. *)
Lemma extract_range_valid (max_comments : option nat) (elements : list WebElement) :
  Forall (fun e => is_valid e = true) elements ->
  forall d s comments,
    length comments = s ->
    s + d <= length elements ->
    (forall m, max_comments = Some m -> m <> 0 -> s + d <= m) ->
    exists comments',
      extract_range max_comments elements (seq s d) comments = Ret (comments', seq s d)
      /\ length comments' = s + d.
Proof.
  intros Hvalid. induction d as [|d IH]; intros s comments Hlen Hin Hcap; simpl.
  - exists comments. split; [reflexivity|lia].
  - destruct (nth_error elements s) as [el|] eqn:Hnth.
    2:{ apply nth_error_None in Hnth. lia. }
    assert (is_valid el = true) as Hel.
    { rewrite Forall_forall in Hvalid. apply Hvalid. eapply nth_error_In. exact Hnth. }
    unfold is_valid in Hel. destruct (_extract_comment el) as [data|]; [|discriminate].
    assert (length (comments ++ [data]) = S s) as Hlen'
      by (rewrite length_app; simpl; lia).
    destruct (limit_reached max_comments (comments ++ [data])) eqn:Hlim.
    + apply limit_reached_true in Hlim. destruct Hlim as (m & Em & Hm & Hle).
      specialize (Hcap m Em Hm). assert (d = 0) as -> by lia.
      exists (comments ++ [data]). split; [reflexivity|lia].
    + destruct (IH (S s) (comments ++ [data]) Hlen') as (c & -> & Hc).
      * lia.
      * intros m Em Hm. specialize (Hcap m Em Hm). lia.
      * simpl. exists c. split; [reflexivity|lia].
Qed.

Lemma get_video_info_resolved (self : Session) (video_url : string) :
  resolves video_url = true ->
  exists info, get_video_info self video_url = Ret (Some info).
Proof.
  unfold resolves, get_video_info.
  destruct (extract_video_id video_url) as [[id|]|e| |]; cbn [bind id_truthy];
    try discriminate.
  intros ->. eexists. reflexivity.
Qed.

Lemma reachable_within_cap (self : Session) (max_comments : option nat) (st : LoopState) :
  reachable self max_comments st -> within_cap max_comments (collected st).
Proof.
  induction 1 as [|st p _ _ G E].
  - unfold within_cap. simpl. destruct max_comments; [lia|exact I].
  - apply guard_true in G. destruct G as (G & _).
    destruct (loop_body_ok self max_comments st) as (p' & E' & H).
    rewrite E in E'. injection E' as <-. apply H. exact G.
Qed.

(** A pass under the cap 25 over valid threads leaves as many comments as
    the window ends at. *)
Lemma valid_pass (self : Session) (st : LoopState) (p : Pass) :
  Forall (fun e => is_valid e = true) (comment_threads self (scroll_count st)) ->
  length (collected st) <= length (comment_threads self (scroll_count st)) ->
  length (collected st) < 25 ->
  loop_body self (Some 25) st = Ret p ->
  length (collected (next p))
  = Nat.min (Nat.min (length (comment_threads self (scroll_count st)))
               (length (collected st) + 10)) 25.
Proof.
  intros Hvalid Hk Hk25. unfold loop_body.
  set (elements := comment_threads self (scroll_count st)) in *.
  set (k := length (collected st)) in *. set (n := length elements) in *.
  assert (end_index (Some 25) n k = Nat.min (Nat.min n (k + 10)) 25) as ->
    by reflexivity.
  destruct (extract_range_valid (Some 25) elements Hvalid
              (Nat.min (Nat.min n (k + 10)) 25 - k) k (collected st) eq_refl)
    as (c & Ec & Hc).
  - fold n. lia.
  - intros m Em _. injection Em as <-. lia.
  - unfold range. rewrite Ec. cbn [bind fst snd].
    destruct (limit_reached (Some 25) c); intros Hp; injection Hp as <-;
      cbn [next collected]; lia.
Qed.

Lemma limit_25 comments :
  limit_reached (Some 25) comments = Nat.leb 25 (length comments).
Proof. reflexivity. Qed.

Lemma shown_inv_kept (self : Session) :
  (forall n, Forall (fun e => is_valid e = true) (comment_threads self n)) ->
  (forall n, length (comment_threads self n) <= length (comment_threads self (S n))) ->
  forall st p,
    shown_inv self st -> guard (Some 25) st = true ->
    loop_body self (Some 25) st = Ret p -> shown_inv self (next p).
Proof.
  intros Hvalid Hmono st p (Hks & Hk25 & Hu3 & H30 & Hshown & _ & Hreach) G E.
  apply guard_true in G. destruct G as (Hlim & Hs & Hu).
  assert (length (collected st) < 25) as Hk
    by (apply (limit_reached_false _ _ Hlim 25 eq_refl); discriminate).
  pose proof (valid_pass self st p (Hvalid _) ltac:(lia) Hk E) as Hlen.
  destruct (loop_body_facts self (Some 25) st p E) as (Hb & Hsc & Hl & Hc).
  destruct Hreach as [Hreach|Hreach]; [congruence|].
  pose proof (Hmono (scroll_count st)) as Hnext.
  assert (Hbroke : broke p
                   = Nat.leb 25 (Nat.min (Nat.min (length (comment_threads self (scroll_count st)))
                                            (length (collected st) + 10)) 25))
    by (rewrite Hb, limit_25, Hlen; reflexivity).
  unfold shown_inv. rewrite <- Hb, Hsc, Hl, Hc, Hlen, Hbroke.
  set (k := length (collected st)) in *.
  set (shown := last_comment_count st) in *.
  set (found := length (comment_threads self (scroll_count st))) in *.
  destruct (Nat.ltb_spec shown found) as [Hgrew|Hsame];
    destruct (Nat.leb_spec 25 (Nat.min (Nat.min found (k + 10)) 25)) as [H25|H25];
    conjs; try lia; try (left; reflexivity);
    try (right; exists (scroll_count st); split; [reflexivity|lia]);
    right; lia.
Qed.

(** C1, as the code has it.  With [max_comments] = 25 and a URL that
    resolves, the run returns a result; the collected sequence holds at most
    25 comments after every pass of the loop, so the final truncation changes
    nothing and the result holds at most 25.  On a page whose threads are all
    valid and never get fewer from one query to the next, let [q] be the last
    query of the run (the pass that reached the cap, or else the last pass):
    the result never holds more than min(25, number of threads at [q]), and
    it holds exactly that many unless the run ended at the scroll ceiling,
    [scroll_count] = 30. *)
Theorem capped_run_hands_over_at_most_25 (self : Session) (video_url sort_by : string) :
  resolves video_url = true ->
  exists st res,
    collect self (Some 25) = Ret st
    /\ scrape_comments self video_url (Some 25) sort_by = Ret (Some res)
    /\ (forall st', reachable self (Some 25) st' -> length (collected st') <= 25)
    /\ comments res = collected st
    /\ length (comments res) <= 25
    /\ ((forall n, Forall (fun e => is_valid e = true) (comment_threads self n)) ->
        (forall n, length (comment_threads self n) <= length (comment_threads self (S n))) ->
        exists q,
          (if limit_reached (Some 25) (collected st)
           then q = scroll_count st else S q = scroll_count st)
          /\ length (comments res) <= Nat.min 25 (length (comment_threads self q))
          /\ (length (comments res) = Nat.min 25 (length (comment_threads self q))
              \/ scroll_count st = 30)).
Proof.
  intros Hid.
  destruct (get_video_info_resolved self video_url Hid) as (info & Hinfo).
  destruct (collect_within_cap self (Some 25)) as (st & E & Hcap).
  assert (length (collected st) <= 25) as Hle by (apply Hcap; discriminate).
  unfold scrape_comments. rewrite Hinfo. cbn [bind]. rewrite E. cbn [bind].
  eexists st, _. conjs; try reflexivity; cbn [comments truncate Nat.eqb].
  - intros st' Hr. apply (reachable_within_cap _ _ _ Hr). discriminate.
  - apply firstn_all2. exact Hle.
  - rewrite firstn_all2; exact Hle.
  - intros Hvalid Hmono. rewrite (firstn_all2 _ Hle).
    destruct (while_invariant self (Some 25) (shown_inv self)
                (shown_inv_kept self Hvalid Hmono) 30 initial)
      as (st' & E' & (Hks & Hk25 & Hu3 & H30 & Hshown & Hq & Hreach) & G).
    { unfold shown_inv. cbn. lia. }
    { cbn. lia. }
    unfold collect in E. rewrite E in E'. injection E' as <-.
    apply guard_false in G. rewrite limit_25 in *.
    destruct (Nat.leb_spec 25 (length (collected st))) as [H25|H25].
    + exists (scroll_count st). rewrite <- Hq. conjs; [reflexivity|lia|left; lia].
    + destruct Hq as [(H0 & _ & Hu0)|(q & Hsq & Hq)].
      * destruct G as [G|[G|G]]; [discriminate|lia|lia].
      * exists q. rewrite <- Hq. conjs; [congruence|lia|].
        destruct Hreach as [Hr|Hr]; [discriminate|].
        destruct G as [G|[G|G]]; [discriminate|right; lia|left; lia].
Qed.

Lemma capped_run_hands_over_at_most_25_witness :
  exists st res,
    collect Samples.endless_page (Some 25) = Ret st
    /\ scrape_comments Samples.endless_page "abcEFG01234" (Some 25) "top" = Ret (Some res)
    /\ length (comments res) <= 25
    /\ exists q,
         (if limit_reached (Some 25) (collected st)
          then q = scroll_count st else S q = scroll_count st)
         /\ length (comments res)
            <= Nat.min 25 (length (comment_threads Samples.endless_page q))
         /\ (length (comments res)
             = Nat.min 25 (length (comment_threads Samples.endless_page q))
             \/ scroll_count st = 30).
Proof.
  destruct (capped_run_hands_over_at_most_25 Samples.endless_page "abcEFG01234" "top"
              eq_refl)
    as (st & res & H1 & H2 & _ & _ & H5 & H6).
  exists st, res. conjs; auto. apply H6.
  - intros n. apply Forall_forall. intros e He. apply repeat_spec in He. subst e.
    reflexivity.
  - intros n. cbn [comment_threads Samples.endless_page Samples.session].
    rewrite !repeat_length. lia.
Defined.

(** C1 as stated fails in two ways.  A page that shows its second thread
    only after the stall ceiling has ended the loop yields one comment out
    of the two it can yield; and a page whose first thread has no author
    yields its one valid comment twice. *)
Lemma handed_over_is_not_min_25_available :
  (handed_over (scrape_comments Samples.slow_page "abcEFG01234" (Some 25) "top") = Some 1
   /\ valid_count (comment_threads Samples.slow_page 5) = 2)
  /\ (handed_over (scrape_comments (Samples.static_page [Samples.anonymous; Samples.bob])
                     "abcEFG01234" (Some 25) "top") = Some 2
      /\ valid_count [Samples.anonymous; Samples.bob] = 1).
Proof. split; split; reflexivity. Qed.

(** At the scroll ceiling the result can fall short of what the page shows:
    [late_page] shows its hundred threads at the thirtieth query only, and
    the run ends with twenty. *)
Example scroll_ceiling_cuts_short :
  handed_over (scrape_comments Samples.late_page "abcEFG01234" (Some 25) "top") = Some 20
  /\ length (comment_threads Samples.late_page 29) = 100.
Proof. split; reflexivity. Qed.

(** *** Aborting on an unresolvable identifier *)

Lemma get_video_info_unresolved (self : Session) (video_url : string) found :
  extract_video_id video_url = Ret found -> id_truthy found = false ->
  get_video_info self video_url = Ret None.
Proof.
  intros E H. unfold get_video_info. rewrite E. cbn [bind].
  destruct found as [id|]; [|reflexivity]. cbn [id_truthy] in H. rewrite H. reflexivity.
Qed.

(** X18.  What a run does follows what the extractor does (the calls to
    the driver being taken to succeed).  When the extractor answers an
    identifier that is not empty, [scrape_comments] returns a result.  When
    it answers [None] or the empty string, [get_video_info] and
    [scrape_comments] return [None] and [main] writes no file.  When it
    raises, [scrape_comments] ends with the same error and [main] writes no
    file. *)
Theorem run_follows_the_extractor (self : Session) (inp : Inputs)
    (max_comments : option nat) (sort_by : string) :
  match extract_video_id (in_video_url inp) with
  | Ret found =>
      if id_truthy found
      then exists res,
             scrape_comments self (in_video_url inp) max_comments sort_by = Ret (Some res)
      else get_video_info self (in_video_url inp) = Ret None
           /\ scrape_comments self (in_video_url inp) max_comments sort_by = Ret None
           /\ fst (main self inp) = []
  | Raise e =>
      scrape_comments self (in_video_url inp) max_comments sort_by = Raise e
      /\ fst (main self inp) = []
  | Unfinished =>
      scrape_comments self (in_video_url inp) max_comments sort_by = Unfinished
  | Outside =>
      scrape_comments self (in_video_url inp) max_comments sort_by = Outside
  end.
Proof.
  destruct (extract_video_id (in_video_url inp)) as [found|e| |] eqn:E.
  - destruct (id_truthy found) eqn:Hid.
    + assert (resolves (in_video_url inp) = true) as Hr
        by (unfold resolves; rewrite E; exact Hid).
      destruct (get_video_info_resolved self _ Hr) as (info & Hinfo).
      destruct (collect_total self max_comments) as (st & Ec & _).
      unfold scrape_comments. rewrite Hinfo. cbn [bind]. rewrite Ec. cbn [bind].
      eexists. reflexivity.
    + pose proof (get_video_info_unresolved self _ found E Hid) as Hno.
      assert (forall m s, scrape_comments self (in_video_url inp) m s = Ret None) as Hs
        by (intros m s; unfold scrape_comments; rewrite Hno; reflexivity).
      conjs; [exact Hno|apply Hs|].
      unfold main. destruct (parse_max_comments (in_max_comments inp)); try reflexivity.
      rewrite E, Hs. reflexivity.
  - split.
    + unfold scrape_comments, get_video_info. rewrite E. reflexivity.
    + unfold main. destruct (parse_max_comments (in_max_comments inp)); try reflexivity.
      rewrite E. reflexivity.
  - unfold scrape_comments, get_video_info. rewrite E. reflexivity.
  - unfold scrape_comments, get_video_info. rewrite E. reflexivity.
Qed.

(** C9 at its failing input.  [unbalanced_url] is a watch address, so the
    extractor hands it to [urlparse], which raises [ValueError] on the
    unclosed square bracket.  Nothing catches it: instead of the report
    "Invalid YouTube URL" and the result [None], [get_video_info],
    [scrape_comments] and [main] end with that error.  (No file is written
    here either.) *)
Theorem unparsable_url_raises_instead_of_none :
  contains "youtube.com/watch" Samples.unbalanced_url = true
  /\ extract_video_id Samples.unbalanced_url = Raise ValueError
  /\ get_video_info (Samples.static_page [Samples.bob]) Samples.unbalanced_url
     = Raise ValueError
  /\ scrape_comments (Samples.static_page [Samples.bob]) Samples.unbalanced_url
       (Some 25) "top" = Raise ValueError
  /\ main (Samples.static_page [Samples.bob])
       {| in_video_url := Samples.unbalanced_url; in_max_comments := "25";
          in_sort_option := "top"; in_output_format := "both" |}
     = ([], Raise ValueError).
Proof. conjs; reflexivity. Qed.

(** *** The identifier extractor *)

Lemma class_repeat_whole n :
  forall s rest,
    class_repeat n s = Some rest -> at_dollar rest = true ->
    ends_with_newline s = false ->
    String.length s = n /\ all_chars is_id_char s = true.
Proof.
  induction n as [|n IH]; intros s rest H Hd Hnl; simpl in H.
  - injection H as <-. destruct s as [|a [|b s]]; simpl in *; try discriminate; auto.
    congruence.
  - destruct s as [|a s]; [discriminate|].
    destruct (is_id_char a) eqn:Ha; [|discriminate].
    assert (ends_with_newline s = false) as Hs
      by (destruct s; [reflexivity|exact Hnl]).
    destruct (IH s rest H Hd Hs) as (Hlen & Hall).
    simpl. rewrite Ha, Hall, Hlen. auto.
Qed.

Lemma re_match_id_identifier s :
  re_match_id s = true -> ends_with_newline s = false -> is_identifier s = true.
Proof.
  unfold re_match_id, is_identifier. intros H Hnl.
  destruct (class_repeat 11 s) as [rest|] eqn:E; [|discriminate].
  destruct (class_repeat_whole 11 s rest E H Hnl) as (-> & ->). reflexivity.
Qed.

Lemma class_repeat_all n :
  forall s, String.length s = n -> all_chars is_id_char s = true ->
            class_repeat n s = Some EmptyString.
Proof.
  induction n as [|n IH]; intros [|a s] Hlen Hall; simpl in *; try discriminate;
    try reflexivity.
  apply andb_true_iff in Hall. destruct Hall as (-> & Hall).
  apply IH; [lia|exact Hall].
Qed.

Lemma identifier_re_match s : is_identifier s = true -> re_match_id s = true.
Proof.
  unfold is_identifier, re_match_id. intros H. apply andb_true_iff in H.
  destruct H as (Hlen & Hall). apply Nat.eqb_eq in Hlen.
  rewrite (class_repeat_all 11 s Hlen Hall). reflexivity.
Qed.

Lemma no_marker url :
  has_marker url = false ->
  contains "youtu.be" url = false
  /\ contains "youtube.com/watch" url = false
  /\ contains "youtube.com/shorts" url = false
  /\ contains "youtube.com/embed" url = false.
Proof.
  unfold has_marker. rewrite !orb_false_iff. tauto.
Qed.

(** The four shapes of C5 carrying [abcEFG01234], with and without a query
    string. *)
Lemma extract_video_id_shapes :
  extract_video_id "https://youtu.be/abcEFG01234" = Ret (Some "abcEFG01234")
  /\ extract_video_id "https://youtu.be/abcEFG01234?t=42" = Ret (Some "abcEFG01234")
  /\ extract_video_id "https://www.youtube.com/watch?v=abcEFG01234" = Ret (Some "abcEFG01234")
  /\ extract_video_id "https://www.youtube.com/watch?t=42&v=abcEFG01234#top" = Ret (Some "abcEFG01234")
  /\ extract_video_id "https://www.youtube.com/shorts/abcEFG01234" = Ret (Some "abcEFG01234")
  /\ extract_video_id "https://www.youtube.com/embed/abcEFG01234?rel=0" = Ret (Some "abcEFG01234")
  /\ extract_video_id "abcEFG01234" = Ret (Some "abcEFG01234")
  /\ extract_video_id "not a url" = Ret None
  /\ extract_video_id "https://www.youtube.com/watch?t=42" = Ret None.
Proof. conjs; reflexivity. Qed.

(** A string of none of the four shapes that does not end in a line feed is
    refused. *)
Lemma unrecognised_is_refused url :
  has_marker url = false -> is_identifier url = false ->
  ends_with_newline url = false -> extract_video_id url = Ret None.
Proof.
  intros Hm Hid Hnl. apply no_marker in Hm. destruct Hm as (H1 & H2 & H3 & H4).
  unfold extract_video_id. rewrite H1, H2, H3, H4. simpl.
  destruct (re_match_id url) eqn:E; [|reflexivity].
  rewrite (re_match_id_identifier url E Hnl) in Hid. discriminate.
Qed.

(** C5 at its failing input.  The identifier followed by a line feed has 12
    characters and none of the markers, so it is of none of the four shapes;
    the pattern ends in [$], which also matches before a final line feed,
    and the extractor returns the whole string instead of [None]. *)
Theorem identifier_with_line_feed_is_accepted :
  has_marker Samples.id_with_line_feed = false
  /\ String.length Samples.id_with_line_feed = 12
  /\ is_identifier Samples.id_with_line_feed = false
  /\ extract_video_id Samples.id_with_line_feed = Ret (Some Samples.id_with_line_feed).
Proof. conjs; reflexivity. Qed.


(** *** The field extractor *)

Lemma lstrip_start s : starts_with_space (lstrip s) = false.
Proof.
  induction s as [|a s IH]; simpl; [reflexivity|].
  destruct (is_space a) eqn:Ha; [exact IH|]. simpl. exact Ha.
Qed.

Lemma rstrip_end s : ends_with_space (rstrip s) = false.
Proof.
  induction s as [|a s IH]; simpl; [reflexivity|].
  destruct (rstrip s) as [|b r].
  - destruct (is_space a) eqn:Ha; simpl; [reflexivity|exact Ha].
  - exact IH.
Qed.

Lemma lstrip_keeps_end s :
  ends_with_space s = false -> ends_with_space (lstrip s) = false.
Proof.
  induction s as [|a s IH]; intros H; simpl; [reflexivity|].
  destruct (is_space a); [|exact H].
  apply IH. destruct s; [reflexivity|exact H].
Qed.

Lemma strip_trimmed s : trimmed (strip s).
Proof.
  unfold trimmed, strip. split; [apply lstrip_start|].
  apply lstrip_keeps_end, rstrip_end.
Qed.

(** [_get_text] hands on the text of the title element as the driver gives
    it, white space included, where its sibling [_get_element_text] strips
    it. *)
Lemma page_text_is_not_trimmed :
  page_elements Samples.titled_page "h1 yt-formatted-string" = [Samples.leaf " a "]
  /\ _get_text Samples.titled_page "h1 yt-formatted-string" "Unknown Title" = " a "
  /\ strip (text (Samples.leaf " a ")) = "a"
  /\ ~ trimmed (_get_text Samples.titled_page "h1 yt-formatted-string" "Unknown Title").
Proof.
  conjs; try reflexivity. intros [H _]. discriminate H.
Qed.

(** *** Comment records *)

Lemma truthy_iff s : truthy s = true <-> s <> EmptyString.
Proof. destruct s; simpl; split; congruence. Qed.

Lemma or_else_not_empty x d : d <> EmptyString -> or_else x d <> EmptyString.
Proof.
  unfold or_else. intros Hd. destruct (truthy x) eqn:Hx; [|exact Hd].
  apply truthy_iff. exact Hx.
Qed.

Lemma missing_element_text parent selector :
  find_elements parent selector = [] -> _get_element_text parent selector = EmptyString.
Proof. unfold _get_element_text. intros ->. reflexivity. Qed.

(** C8.  [_extract_comment] makes a record exactly when the extracted
    author and the extracted text are both non-empty, and the record carries
    them; when either is empty it returns [None], and the loop, handed such
    an element, leaves the collected comments as they were. *)
Theorem record_iff_author_and_text (comment_element : WebElement) :
  ((exists r, _extract_comment comment_element = Some r)
   <-> _get_element_text comment_element "#author-text" <> EmptyString
       /\ _get_element_text comment_element "#content-text" <> EmptyString)
  /\ (forall r, _extract_comment comment_element = Some r ->
        author r = _get_element_text comment_element "#author-text"
        /\ comment_text r = _get_element_text comment_element "#content-text")
  /\ (_get_element_text comment_element "#author-text" = EmptyString
      \/ _get_element_text comment_element "#content-text" = EmptyString ->
      _extract_comment comment_element = None
      /\ forall max_comments elements i comments,
           nth_error elements i = Some comment_element ->
           extract_range max_comments elements [i] comments = Ret (comments, [i])).
Proof.
  unfold _extract_comment.
  set (a := _get_element_text comment_element "#author-text").
  set (t := _get_element_text comment_element "#content-text").
  conjs.
  - split.
    + intros (r & H). destruct (truthy a) eqn:Ha; [|discriminate].
      destruct (truthy t) eqn:Ht; [|discriminate].
      split; apply truthy_iff; assumption.
    + intros (Ha & Ht). apply truthy_iff in Ha, Ht. rewrite Ha, Ht.
      eexists. reflexivity.
  - intros r H. destruct (truthy a && truthy t); [|discriminate].
    injection H as <-. split; reflexivity.
  - intros H.
    assert (truthy a && truthy t = false) as Hf
      by (destruct H as [-> | ->]; [reflexivity|apply andb_false_r]).
    rewrite Hf. split; [reflexivity|].
    intros max_comments elements i comments Hnth. simpl. rewrite Hnth.
    unfold _extract_comment. fold a t. rewrite Hf. reflexivity.
Qed.

Lemma record_iff_author_and_text_witness :
  _extract_comment Samples.anonymous = None
  /\ extract_range (Some 25) [Samples.anonymous; Samples.bob] [0] []
     = Ret ([], [0]).
Proof.
  destruct (record_iff_author_and_text Samples.anonymous) as (_ & _ & H).
  destruct (H (or_introl eq_refl)) as (H1 & H2).
  split; [exact H1|]. apply H2. reflexivity.
Defined.

(** C10.  A record that is made has no empty field: the author and the text
    by the validity rule, the likes and the time stamp because an absent or
    empty reading is replaced by ["0"] and by ["Unknown"]. *)
Theorem record_fields_are_never_empty (comment_element : WebElement) (r : CommentRecord) :
  _extract_comment comment_element = Some r ->
  (author r <> EmptyString /\ comment_text r <> EmptyString
   /\ likes r <> EmptyString /\ timestamp r <> EmptyString)
  /\ (find_elements comment_element "#vote-count-middle" = []
      \/ _get_element_text comment_element "#vote-count-middle" = EmptyString ->
      likes r = "0")
  /\ (find_elements comment_element ".published-time-text" = []
      \/ _get_element_text comment_element ".published-time-text" = EmptyString ->
      timestamp r = "Unknown")
  /\ (_get_element_text comment_element "#vote-count-middle" <> EmptyString ->
      likes r = _get_element_text comment_element "#vote-count-middle")
  /\ (_get_element_text comment_element ".published-time-text" <> EmptyString ->
      timestamp r = _get_element_text comment_element ".published-time-text").
Proof.
  unfold _extract_comment.
  set (a := _get_element_text comment_element "#author-text").
  set (t := _get_element_text comment_element "#content-text").
  destruct (truthy a) eqn:Ha; [|discriminate].
  destruct (truthy t) eqn:Ht; [|discriminate].
  intros H. injection H as <-. cbn [author comment_text likes timestamp].
  conjs.
  - apply truthy_iff. exact Ha.
  - apply truthy_iff. exact Ht.
  - apply or_else_not_empty. discriminate.
  - apply or_else_not_empty. discriminate.
  - intros [H|H]; [apply missing_element_text in H|]; rewrite H; reflexivity.
  - intros [H|H]; [apply missing_element_text in H|]; rewrite H; reflexivity.
  - intros H. apply truthy_iff in H. unfold or_else. rewrite H. reflexivity.
  - intros H. apply truthy_iff in H. unfold or_else. rewrite H. reflexivity.
Qed.

Lemma record_fields_are_never_empty_witness :
  _extract_comment Samples.bob
  = Some {| author := "bob"; comment_text := "hi"; likes := "0"; timestamp := "Unknown" |}
  /\ likes {| author := "bob"; comment_text := "hi"; likes := "0"; timestamp := "Unknown" |}
     = "0"
  /\ timestamp {| author := "bob"; comment_text := "hi"; likes := "0"; timestamp := "Unknown" |}
     = "Unknown".
Proof.
  destruct (record_fields_are_never_empty Samples.bob
              {| author := "bob"; comment_text := "hi"; likes := "0"; timestamp := "Unknown" |}
              eq_refl)
    as (_ & Hl & Ht & _).
  conjs; [reflexivity|apply Hl|apply Ht]; left; reflexivity.
Defined.

(** ** Further properties of the identifier extractor *)

Lemma prefix_has_char c sub :
  forall s, prefix sub s = true -> has_char c sub = true -> has_char c s = true.
Proof.
  induction sub as [|a sub IH]; intros s Hp Hc; [discriminate|].
  destruct s as [|b s]; [discriminate|].
  cbn [prefix] in Hp. cbn [has_char] in *.
  destruct (ascii_dec a b) as [<-|]; [|discriminate].
  apply orb_true_iff in Hc. destruct Hc as [-> | Hc]; [reflexivity|].
  rewrite (IH s Hp Hc). apply orb_true_r.
Qed.

Lemma contains_has_char c sub s :
  has_char c sub = true -> has_char c s = false -> contains sub s = false.
Proof.
  intros Hsub. induction s as [|a s IH]; intros Hs; cbn [contains].
  - destruct (prefix sub EmptyString) eqn:Hp; [|reflexivity].
    rewrite (prefix_has_char c sub _ Hp Hsub) in Hs. discriminate.
  - destruct (prefix sub (String a s)) eqn:Hp.
    + rewrite (prefix_has_char c sub _ Hp Hsub) in Hs. discriminate.
    + apply IH. cbn [has_char] in Hs. apply orb_false_iff in Hs. apply Hs.
Qed.

Lemma id_char_differs a c :
  is_id_char a = true -> is_id_char c = false -> Ascii.eqb a c = false.
Proof.
  intros Ha Hc. destruct (Ascii.eqb a c) eqn:E; [|reflexivity].
  apply Ascii.eqb_eq in E. congruence.
Qed.

Lemma id_chars_lack c s :
  all_chars is_id_char s = true -> is_id_char c = false -> has_char c s = false.
Proof.
  intros Hs Hc. induction s as [|a s IH]; simpl in *; [reflexivity|].
  apply andb_true_iff in Hs. destruct Hs as (Ha & Hs).
  rewrite (id_char_differs a c Ha Hc), (IH Hs). reflexivity.
Qed.

Lemma id_chars_no_marker s :
  all_chars is_id_char s = true -> has_marker s = false.
Proof.
  intros Hs. unfold has_marker.
  assert (has_char "." s = false) as Hdot by (apply id_chars_lack; auto).
  rewrite !(contains_has_char "." _ s) by (reflexivity || exact Hdot). reflexivity.
Qed.

(** X1.  Every string of the identifier pattern is returned as it is: such
    a string cannot carry a URL marker, so it reaches the last test. *)
Theorem identifier_is_returned (s : string) :
  is_identifier s = true -> extract_video_id s = Ret (Some s).
Proof.
  intros H. pose proof (identifier_re_match s H) as Hre.
  unfold is_identifier in H. apply andb_true_iff in H. destruct H as (_ & Hall).
  pose proof (id_chars_no_marker s Hall) as Hm. apply no_marker in Hm.
  destruct Hm as (H1 & H2 & H3 & H4).
  unfold extract_video_id. rewrite H1, H2, H3, H4, Hre. reflexivity.
Qed.

Lemma identifier_is_returned_witness :
  extract_video_id "dQw4w9WgXcQ" = Ret (Some "dQw4w9WgXcQ").
Proof. apply (identifier_is_returned "dQw4w9WgXcQ"). reflexivity. Defined.

Lemma has_char_app c s t :
  has_char c (s ++ t)%string = has_char c s || has_char c t.
Proof.
  induction s as [|a s IH]; cbn [String.append has_char]; [reflexivity|].
  rewrite IH. apply orb_assoc.
Qed.

Lemma split1_absent c s : has_char c s = false -> split1 c s = (s, None).
Proof.
  induction s as [|a s IH]; cbn [has_char split1]; intros H; [reflexivity|].
  apply orb_false_iff in H. destruct H as (-> & H). rewrite (IH H). reflexivity.
Qed.

Lemma split1_found c pre post :
  has_char c pre = false ->
  split1 c (pre ++ String c post)%string = (pre, Some post).
Proof.
  induction pre as [|a pre IH]; cbn [has_char split1 String.append]; intros H.
  - rewrite Ascii.eqb_refl. reflexivity.
  - apply orb_false_iff in H. destruct H as (-> & H). rewrite (IH H). reflexivity.
Qed.

Lemma split_absent c s : has_char c s = false -> split c s = [s].
Proof.
  induction s as [|a s IH]; cbn [has_char split]; intros H; [reflexivity|].
  apply orb_false_iff in H. destruct H as (-> & H). rewrite (IH H). reflexivity.
Qed.

Lemma replace_absent a b s : has_char a s = false -> replace a b s = s.
Proof.
  induction s as [|c s IH]; cbn [has_char replace]; intros H; [reflexivity|].
  apply orb_false_iff in H. destruct H as (-> & H). rewrite (IH H). reflexivity.
Qed.

Lemma unquote_absent s : has_char "%" s = false -> unquote s = Some s.
Proof.
  induction s as [|c s IH]; cbn [has_char unquote]; intros H; [reflexivity|].
  apply orb_false_iff in H. destruct H as (-> & H). rewrite (IH H). reflexivity.
Qed.

Lemma contains_skip sub a s :
  prefix sub (String a s) = false -> contains sub (String a s) = contains sub s.
Proof. intros H. cbn [contains]. rewrite H. reflexivity. Qed.

Lemma contains_hit sub s : prefix sub s = true -> contains sub s = true.
Proof. intros H. destruct s; cbn [contains]; rewrite H; reflexivity. Qed.

Lemma all_chars_weaken (p q : ascii -> bool) s :
  (forall a, p a = true -> q a = true) ->
  all_chars p s = true -> all_chars q s = true.
Proof.
  intros Hpq. induction s as [|a s IH]; cbn [all_chars]; [reflexivity|].
  intros H. apply andb_true_iff in H. destruct H as (Ha & H).
  rewrite (Hpq a Ha), (IH H). reflexivity.
Qed.

Lemma without_app p s t :
  without p (s ++ t)%string = (without p s ++ without p t)%string.
Proof.
  induction s as [|a s IH]; cbn [String.append without]; [reflexivity|].
  destruct (p a); [exact IH|]. cbn [String.append]. rewrite IH. reflexivity.
Qed.

Lemma without_absent p s :
  all_chars (fun a => negb (p a)) s = true -> without p s = s.
Proof.
  induction s as [|a s IH]; cbn [all_chars without]; [reflexivity|].
  intros H. apply andb_true_iff in H. destruct H as (Ha & H).
  apply negb_true_iff in Ha. rewrite Ha, (IH H). reflexivity.
Qed.

Lemma id_char_is_kept a :
  is_id_char a = true -> negb (is_tab_or_newline a) = true.
Proof.
  destruct a as [[] [] [] [] [] [] [] []]; intros H;
    first [reflexivity | discriminate H].
Qed.

Lemma splitnetloc_found netloc a rest :
  all_chars (fun c => negb (is_netloc_end c)) netloc = true ->
  is_netloc_end a = true ->
  splitnetloc (netloc ++ String a rest)%string = (netloc, String a rest).
Proof.
  intros H Ha. induction netloc as [|c netloc IH]; cbn [String.append splitnetloc].
  - rewrite Ha. reflexivity.
  - cbn [all_chars] in H. apply andb_true_iff in H. destruct H as (Hc & H).
    apply negb_true_iff in Hc. rewrite Hc, (IH H). reflexivity.
Qed.

Lemma after_scheme_found a scheme rest :
  has_char ":" (String a scheme) = false ->
  is_ascii_letter a && all_chars is_scheme_char (String a scheme) = true ->
  after_scheme (String a scheme ++ String ":" rest)%string = rest.
Proof.
  intros Hc Hs. unfold after_scheme. cbn [String.append].
  change (String a (scheme ++ String ":" rest))%string
    with (String a scheme ++ String ":" rest)%string.
  rewrite (split1_found ":") by exact Hc. cbn [truthy andb]. rewrite Hs. reflexivity.
Qed.

(** The query of a page address that [get_video_info] builds. *)
Lemma canonical_url_query id :
  all_chars is_id_char id = true ->
  urlparse_query ("https://www.youtube.com/watch?v=" ++ id)%string
  = Ret ("v=" ++ id)%string.
Proof.
  intros Hid.
  assert (Hlack : forall c, is_id_char c = false -> has_char c id = false)
    by (intros c Hc; apply id_chars_lack; assumption).
  unfold urlparse_query.
  change (lstrip_of is_c0_or_space ("https://www.youtube.com/watch?v=" ++ id)%string)
    with ("https://www.youtube.com/watch?v=" ++ id)%string.
  rewrite without_app.
  rewrite (without_absent _ id) by (apply (all_chars_weaken is_id_char); [apply id_char_is_kept|exact Hid]).
  change (without is_tab_or_newline "https://www.youtube.com/watch?v=")
    with "https://www.youtube.com/watch?v=".
  assert (after_scheme ("https://www.youtube.com/watch?v=" ++ id)%string
          = ("//www.youtube.com/watch?v=" ++ id)%string) as ->.
  { exact (after_scheme_found "h" "ttps" ("//www.youtube.com/watch?v=" ++ id)
             eq_refl eq_refl). }
  assert (after_netloc ("//www.youtube.com/watch?v=" ++ id)%string
          = Ret ("/watch?v=" ++ id)%string) as ->.
  { change ("//www.youtube.com/watch?v=" ++ id)%string
      with (String "/" (String "/" ("www.youtube.com" ++ String "/" ("watch?v=" ++ id))))%string.
    unfold after_netloc.
    change (Ascii.eqb "/" "/" && Ascii.eqb "/" "/") with true. cbv iota.
    rewrite splitnetloc_found by reflexivity. reflexivity. }
  cbn [bind].
  rewrite (split1_absent "#")
    by (rewrite has_char_app, (Hlack "#"%char eq_refl); reflexivity).
  cbn [fst].
  change ("/watch?v=" ++ id)%string
    with ("/watch" ++ String "?" ("v=" ++ id))%string.
  rewrite (split1_found "?") by reflexivity. reflexivity.
Qed.

(** The page address that [get_video_info] builds leads back to the
    identifier it was built from. *)
Lemma canonical_url_extracts id :
  all_chars is_id_char id = true -> truthy id = true ->
  extract_video_id ("https://www.youtube.com/watch?v=" ++ id)%string = Ret (Some id).
Proof.
  intros Hid Hne.
  assert (Hlack : forall c, is_id_char c = false -> has_char c id = false)
    by (intros c Hc; apply id_chars_lack; assumption).
  unfold extract_video_id.
  assert (contains "youtu.be" ("https://www.youtube.com/watch?v=" ++ id)%string = false) as ->.
  { cbn [String.append]. repeat (rewrite contains_skip by reflexivity).
    apply (contains_has_char "."); [reflexivity|]. apply Hlack. reflexivity. }
  assert (contains "youtube.com/watch" ("https://www.youtube.com/watch?v=" ++ id)%string = true) as ->.
  { cbn [String.append]. repeat (rewrite contains_skip by reflexivity).
    apply contains_hit. reflexivity. }
  rewrite (canonical_url_query id Hid). cbn [bind].
  unfold parse_qs_get_first, parse_qsl.
  rewrite (split_absent "&")
    by (rewrite has_char_app, (Hlack "&"%char eq_refl); reflexivity).
  cbn [flat_map]. unfold parse_field.
  change ("v=" ++ id)%string with ("v" ++ String "=" id)%string.
  rewrite (split1_found "=") by reflexivity.
  rewrite Hne, (replace_absent "+" " " id), (unquote_absent id)
    by (apply Hlack; reflexivity).
  reflexivity.
Qed.

(** X2.  Whenever [get_video_info] succeeds with an identifier made of
    pattern characters, the canonical page address it records resolves to the
    same identifier: looking the recorded address up again gives the same
    information. *)
Theorem canonical_url_round_trip (self : Session) (video_url : string) (info : VideoInfo) :
  get_video_info self video_url = Ret (Some info) ->
  all_chars is_id_char (video_id info) = true ->
  url info = ("https://www.youtube.com/watch?v=" ++ video_id info)%string
  /\ extract_video_id (url info) = Ret (Some (video_id info))
  /\ get_video_info self (url info) = Ret (Some info).
Proof.
  unfold get_video_info at 1.
  destruct (extract_video_id video_url) as [[id|]| | |]; cbn [bind]; try discriminate.
  destruct (truthy id) eqn:Hne; [|discriminate].
  intros H. injection H as <-. cbn [video_id url]. intros Hid.
  pose proof (canonical_url_extracts id Hid Hne) as E.
  conjs; [reflexivity|exact E|].
  unfold get_video_info. cbn [String.append] in E |- *. rewrite E. cbn [bind].
  rewrite Hne. reflexivity.
Qed.

Lemma canonical_url_round_trip_witness :
  exists info,
    get_video_info Samples.titled_page "https://youtu.be/abcEFG01234?t=42" = Ret (Some info)
    /\ url info = "https://www.youtube.com/watch?v=abcEFG01234"
    /\ get_video_info Samples.titled_page (url info) = Ret (Some info).
Proof.
  eexists. split; [reflexivity|].
  destruct (canonical_url_round_trip Samples.titled_page
              "https://youtu.be/abcEFG01234?t=42" _ eq_refl eq_refl)
    as (H1 & _ & H3).
  split; [exact H1|exact H3].
Defined.

Lemma split_nonempty c s : split c s <> [].
Proof.
  induction s as [|a s IH]; cbn [split]; [discriminate|].
  destruct (Ascii.eqb a c); [discriminate|].
  destruct (split c s); [contradiction|discriminate].
Qed.

Lemma split_pieces_lack_sep c s :
  Forall (fun x => has_char c x = false) (split c s).
Proof.
  induction s as [|a s IH]; cbn [split]; [repeat constructor|].
  destruct (Ascii.eqb a c) eqn:E; [constructor; [reflexivity|exact IH]|].
  destruct (split c s) as [|h t]; [repeat constructor; cbn; rewrite E; reflexivity|].
  inversion IH as [|? ? Hh Ht]; subst. constructor; [|exact Ht].
  cbn [has_char]. rewrite E, Hh. reflexivity.
Qed.

Lemma split_pieces_keep_lack d c s :
  has_char d s = false -> Forall (fun x => has_char d x = false) (split c s).
Proof.
  induction s as [|a s IH]; cbn [split has_char]; intros H; [repeat constructor|].
  apply orb_false_iff in H. destruct H as (Ha & H). specialize (IH H).
  destruct (Ascii.eqb a c); [constructor; [reflexivity|exact IH]|].
  destruct (split c s) as [|h t]; [repeat constructor; cbn; rewrite Ha; reflexivity|].
  inversion IH as [|? ? Hh Ht]; subst. constructor; [|exact Ht].
  cbn [has_char]. rewrite Ha, Hh. reflexivity.
Qed.

Lemma Forall_final (P : string -> Prop) l :
  Forall P l -> P EmptyString -> P (final l).
Proof.
  unfold final. intros H H0. induction H as [|x l Hx Hl IH]; [exact H0|].
  destruct l; [exact Hx|exact IH].
Qed.

Lemma Forall_first (P : string -> Prop) l :
  Forall P l -> P EmptyString -> P (first l).
Proof. unfold first. intros H H0. destruct H; [exact H0|assumption]. Qed.

Lemma last_segment_clean url :
  has_char "/" (last_segment url) = false /\ has_char "?" (last_segment url) = false.
Proof.
  unfold last_segment. split.
  - apply (Forall_first (fun x => has_char "/" x = false)); [|reflexivity].
    apply split_pieces_keep_lack.
    apply (Forall_final (fun x => has_char "/" x = false)); [|reflexivity].
    apply split_pieces_lack_sep.
  - apply (Forall_first (fun x => has_char "?" x = false)); [|reflexivity].
    apply split_pieces_lack_sep.
Qed.

Lemma suffix_result (url id : string) :
  contains "youtu.be" url = true
  \/ (contains "youtube.com/watch" url = false
      /\ contains "youtube.com/shorts" url || contains "youtube.com/embed" url = true) ->
  extract_video_id url = Ret (Some id) ->
  id = last_segment url.
Proof.
  intros Hbranch H. unfold extract_video_id in H.
  destruct (contains "youtu.be" url); [congruence|].
  destruct Hbranch as [Hb|(Hw & Hs)]; [discriminate|].
  rewrite Hw, Hs in H. congruence.
Qed.

(** X3.  On a short link, and on a shorts or embed address that is not a
    watch address, the result is the text after the last [/] up to the first
    [?]: it holds neither a [/] nor a [?]. *)
Theorem suffix_result_has_no_separator (url id : string) :
  contains "youtu.be" url = true
  \/ (contains "youtube.com/watch" url = false
      /\ contains "youtube.com/shorts" url || contains "youtube.com/embed" url = true) ->
  extract_video_id url = Ret (Some id) ->
  id = last_segment url /\ has_char "/" id = false /\ has_char "?" id = false.
Proof.
  intros Hbranch H. rewrite (suffix_result url id Hbranch H).
  split; [reflexivity|apply last_segment_clean].
Qed.

Lemma suffix_result_has_no_separator_witness :
  "abcEFG01234" = last_segment "https://www.youtube.com/embed/abcEFG01234?rel=0"
  /\ has_char "/" "abcEFG01234" = false /\ has_char "?" "abcEFG01234" = false.
Proof.
  apply (suffix_result_has_no_separator
           "https://www.youtube.com/embed/abcEFG01234?rel=0" "abcEFG01234").
  - right. split; reflexivity.
  - reflexivity.
Defined.

Lemma prefix_app sub s t : prefix sub s = true -> prefix sub (s ++ t)%string = true.
Proof.
  revert s. induction sub as [|a sub IH]; intros s H;
    [destruct (s ++ t)%string; reflexivity|].
  destruct s as [|b s]; [discriminate|]. cbn [prefix String.append] in *.
  destruct (ascii_dec a b); [apply IH; exact H|discriminate].
Qed.

Lemma contains_app sub s t :
  contains sub s = true -> contains sub (s ++ t)%string = true.
Proof.
  induction s as [|a s IH]; cbn [contains]; intros H.
  - destruct (prefix sub EmptyString) eqn:Hp; [|discriminate].
    apply contains_hit. apply (prefix_app sub EmptyString t Hp).
  - destruct (prefix sub (String a s)) eqn:Hp.
    + apply contains_hit. apply (prefix_app _ _ t Hp).
    + cbn [String.append contains].
      destruct (prefix sub (String a (s ++ t))); [reflexivity|]. apply IH. exact H.
Qed.

Lemma split_ends_with_sep c s :
  split c (s ++ String c EmptyString)%string = split c s ++ [EmptyString].
Proof.
  induction s as [|a s IH]; cbn [String.append split].
  - rewrite Ascii.eqb_refl. reflexivity.
  - rewrite IH. destruct (Ascii.eqb a c); [reflexivity|].
    pose proof (split_nonempty c s). destruct (split c s); [contradiction|reflexivity].
Qed.

(** X4.  A short link that ends in [/] is refused: the text after the last
    [/] is empty, the extractor answers the empty string, and
    [get_video_info] takes that for no identifier. *)
Theorem short_link_with_trailing_slash_is_refused (self : Session) (video_url : string) :
  contains "youtu.be" video_url = true ->
  extract_video_id (video_url ++ "/")%string = Ret (Some EmptyString)
  /\ get_video_info self (video_url ++ "/")%string = Ret None.
Proof.
  intros H.
  assert (extract_video_id (video_url ++ "/")%string = Ret (Some EmptyString)) as E.
  { unfold extract_video_id. rewrite (contains_app _ _ "/" H).
    unfold last_segment, final. rewrite split_ends_with_sep, last_last. reflexivity. }
  split; [exact E|]. unfold get_video_info. rewrite E. reflexivity.
Qed.

Lemma short_link_with_trailing_slash_is_refused_witness :
  extract_video_id "https://youtu.be/abcEFG01234/" = Ret (Some EmptyString)
  /\ get_video_info Samples.titled_page "https://youtu.be/abcEFG01234/" = Ret None.
Proof.
  apply (short_link_with_trailing_slash_is_refused Samples.titled_page
           "https://youtu.be/abcEFG01234").
  reflexivity.
Defined.

Lemma option_map_truthy (c : ascii) (o : option string) (t : string) :
  option_map (String c) o = Some t -> truthy t = true.
Proof. destruct o; cbn [option_map]; intros H; [injection H as <-; reflexivity|discriminate]. Qed.

Lemma unquote_truthy s t : truthy s = true -> unquote s = Some t -> truthy t = true.
Proof.
  destruct s as [|c s]; [discriminate|]. intros _. cbn [unquote].
  destruct (Ascii.eqb c "%"); [|apply option_map_truthy].
  destruct s as [|h [|l rest]]; try apply option_map_truthy.
  destruct (escape h l) as [b|]; [|apply option_map_truthy].
  destruct (Nat.ltb b 128); [apply option_map_truthy|].
  destruct (Nat.eqb b 194 || Nat.eqb b 195); [|discriminate].
  destruct rest as [|c2 [|h2 [|l2 rest2]]]; try discriminate.
  destruct (Ascii.eqb c2 "%"); [|discriminate].
  destruct (escape h2 l2) as [b2|]; [|discriminate].
  destruct (between 128 191 b2); [apply option_map_truthy|discriminate].
Qed.

Lemma replace_truthy a b s : truthy (replace a b s) = truthy s.
Proof. destruct s; reflexivity. Qed.

Lemma parse_qsl_values qs :
  Forall (fun nv => forall value, snd nv = Some value -> truthy value = true)
         (parse_qsl qs).
Proof.
  unfold parse_qsl. induction (split "&" qs) as [|field l IH]; cbn [flat_map];
    [constructor|].
  apply Forall_app. split; [|exact IH].
  unfold parse_field. destruct (split1 "=" field) as [name [value|]]; [|constructor].
  destruct (truthy value) eqn:Hv; constructor; [|constructor].
  cbn [snd]. intros t. apply unquote_truthy. rewrite replace_truthy. exact Hv.
Qed.

(** A value found on a watch address is not empty. *)
Lemma watch_value_truthy video_url id :
  contains "youtu.be" video_url = false ->
  contains "youtube.com/watch" video_url = true ->
  extract_video_id video_url = Ret (Some id) -> truthy id = true.
Proof.
  intros H1 H2. unfold extract_video_id. rewrite H1, H2.
  destruct (urlparse_query video_url) as [query| | |]; cbn [bind]; try discriminate.
  unfold parse_qs_get_first.
  destruct (find _ _) as [[name [value|]]|] eqn:F; try discriminate.
  intros E. injection E as <-. apply find_some in F. destruct F as (Hin & _).
  pose proof (parse_qsl_values query) as Hall.
  rewrite Forall_forall in Hall. apply (Hall _ Hin). reflexivity.
Qed.

(** X5.  On a watch address the extractor never answers the empty string:
    a [v] parameter with a blank value counts as absent, so an answer is
    [None] or a non-empty value, and [get_video_info] answers [None] exactly
    when the extractor does.  (On an address that [urlparse] refuses the
    extractor raises and gives no answer at all, and so does
    [get_video_info].) *)
Theorem watch_result_is_never_empty (self : Session) (video_url : string) :
  contains "youtu.be" video_url = false ->
  contains "youtube.com/watch" video_url = true ->
  extract_video_id video_url <> Ret (Some EmptyString)
  /\ (get_video_info self video_url = Ret None <-> extract_video_id video_url = Ret None)
  /\ (forall e, get_video_info self video_url = Raise e
                <-> extract_video_id video_url = Raise e).
Proof.
  intros H1 H2. pose proof (watch_value_truthy video_url) as Hne.
  conjs.
  - intros E. apply Hne in E; [discriminate|assumption..].
  - unfold get_video_info.
    destruct (extract_video_id video_url) as [[id|]|e| |]; cbn [bind].
    + rewrite (Hne id H1 H2 eq_refl). split; discriminate.
    + split; intros _; reflexivity.
    + split; discriminate.
    + split; discriminate.
    + split; discriminate.
  - intros e. unfold get_video_info.
    destruct (extract_video_id video_url) as [[id|]|e'| |]; cbn [bind].
    + destruct (truthy id); split; discriminate.
    + split; discriminate.
    + split; intros H; injection H as ->; reflexivity.
    + split; discriminate.
    + split; discriminate.
Qed.

Lemma watch_result_is_never_empty_witness :
  extract_video_id "https://www.youtube.com/watch?v=&t=42" <> Ret (Some EmptyString)
  /\ (get_video_info Samples.titled_page "https://www.youtube.com/watch?v=&t=42" = Ret None
      <-> extract_video_id "https://www.youtube.com/watch?v=&t=42" = Ret None)
  /\ (forall e, get_video_info Samples.titled_page "https://www.youtube.com/watch?v=&t=42" = Raise e
                <-> extract_video_id "https://www.youtube.com/watch?v=&t=42" = Raise e).
Proof.
  apply (watch_result_is_never_empty Samples.titled_page
           "https://www.youtube.com/watch?v=&t=42"); reflexivity.
Defined.

(** *** The shape of a result, branch by branch *)






(** ** Further properties of comment extraction *)

Lemma rstrip_blank s : all_chars is_space s = true -> rstrip s = EmptyString.
Proof.
  induction s as [|a s IH]; cbn [all_chars rstrip]; intros H; [reflexivity|].
  apply andb_true_iff in H. destruct H as (Ha & H). rewrite (IH H), Ha. reflexivity.
Qed.

Lemma rstrip_empty s : rstrip s = EmptyString -> all_chars is_space s = true.
Proof.
  induction s as [|a s IH]; cbn [all_chars rstrip]; intros H; [reflexivity|].
  destruct (rstrip s); [|discriminate].
  destruct (is_space a); [|discriminate]. rewrite IH; reflexivity.
Qed.

Lemma lstrip_empty s : lstrip s = EmptyString -> all_chars is_space s = true.
Proof.
  induction s as [|a s IH]; cbn [all_chars lstrip]; intros H; [reflexivity|].
  destruct (is_space a); [|discriminate]. apply IH. exact H.
Qed.

Lemma blank_ends_with_space s :
  all_chars is_space s = true -> s <> EmptyString -> ends_with_space s = true.
Proof.
  induction s as [|a s IH]; intros H Hne; [contradiction|].
  cbn [all_chars] in H. apply andb_true_iff in H. destruct H as (Ha & H).
  destruct s as [|b s]; [exact Ha|]. apply IH; [exact H|discriminate].
Qed.

Lemma strip_empty_iff s : strip s = EmptyString <-> all_chars is_space s = true.
Proof.
  unfold strip. split.
  - intros H. apply rstrip_empty. apply lstrip_empty in H.
    destruct (rstrip s) as [|a r] eqn:E; [reflexivity|].
    pose proof (rstrip_end s) as Hend. rewrite E in Hend.
    rewrite (blank_ends_with_space _ H) in Hend; discriminate.
  - intros H. rewrite (rstrip_blank s H). reflexivity.
Qed.

Lemma element_text_blank parent selector :
  _get_element_text parent selector = EmptyString <-> blank_reading parent selector = true.
Proof.
  unfold _get_element_text, blank_reading.
  destruct (find_elements parent selector) as [|e rest]; [split; reflexivity|].
  apply strip_empty_iff.
Qed.

Lemma rstrip_keeps s : ends_with_space s = false -> rstrip s = s.
Proof.
  induction s as [|a s IH]; intros H; [reflexivity|]. cbn [rstrip].
  destruct s as [|b t].
  - cbn [rstrip]. cbn [ends_with_space] in H. rewrite H. reflexivity.
  - rewrite IH by exact H. reflexivity.
Qed.

Lemma strip_of_trimmed s : trimmed s -> strip s = s.
Proof.
  intros (Hstart & Hend). unfold strip. rewrite (rstrip_keeps s Hend).
  destruct s as [|a s]; [reflexivity|]. cbn [lstrip starts_with_space] in *.
  rewrite Hstart. reflexivity.
Qed.

(** C7 as stated fails for the helper that works below an element: it takes
    no default, so when nothing matches it cannot return the one the caller
    has in mind (["0"] for the like count) and returns the empty string. *)
Lemma element_helper_has_no_default :
  find_elements Samples.bob "#vote-count-middle" = []
  /\ _get_element_text Samples.bob "#vote-count-middle" = EmptyString
  /\ _get_element_text Samples.bob "#vote-count-middle" <> "0".
Proof. conjs; try reflexivity. discriminate. Qed.

(** C7, as the code has it.  [_get_text] returns the provided default when
    nothing on the page matches the selector, and otherwise the text of the
    first match, up to white space at its two ends.  [_get_element_text]
    takes no default.  When an element below the given one matches, it
    returns the text of the first match without the white space at its two
    ends: a trimmed text, which stripping again leaves as it is.  It returns
    the empty string exactly when nothing matches or the first match shows
    white space only. *)
Theorem field_helpers_first_match_or_default
    (self : Session) (parent : WebElement) (selector default : string) :
  (page_elements self selector = [] -> _get_text self selector default = default)
  /\ (forall e rest, page_elements self selector = e :: rest ->
        strip (_get_text self selector default) = strip (text e))
  /\ (forall e rest, find_elements parent selector = e :: rest ->
        _get_element_text parent selector = strip (text e)
        /\ trimmed (_get_element_text parent selector)
        /\ strip (_get_element_text parent selector) = _get_element_text parent selector)
  /\ (_get_element_text parent selector = EmptyString
      <-> find_elements parent selector = []
          \/ exists e rest, find_elements parent selector = e :: rest
                            /\ all_chars is_space (text e) = true).
Proof.
  conjs.
  - unfold _get_text. intros ->. reflexivity.
  - unfold _get_text. intros e rest ->. reflexivity.
  - intros e rest H.
    assert (_get_element_text parent selector = strip (text e)) as ->
      by (unfold _get_element_text; rewrite H; reflexivity).
    conjs; [reflexivity|apply strip_trimmed|apply strip_of_trimmed, strip_trimmed].
  - rewrite element_text_blank. unfold blank_reading.
    destruct (find_elements parent selector) as [|e rest]; split.
    + intros _. left. reflexivity.
    + reflexivity.
    + intros H. right. exists e, rest. auto.
    + intros [H|(e' & rest' & H & Hb)]; [discriminate|]. injection H as <- <-. exact Hb.
Qed.

Lemma field_helpers_first_match_or_default_witness :
  _get_text Samples.titled_page "span.view-count" "Unknown Views" = "Unknown Views"
  /\ strip (_get_text Samples.titled_page "h1 yt-formatted-string" "Unknown Title") = "a"
  /\ _get_element_text Samples.bob "#content-text" = "hi"
  /\ _get_element_text Samples.bob ".published-time-text" = EmptyString.
Proof.
  destruct (field_helpers_first_match_or_default Samples.titled_page Samples.bob
              "span.view-count" "Unknown Views") as (H1 & _).
  destruct (field_helpers_first_match_or_default Samples.titled_page Samples.bob
              "h1 yt-formatted-string" "Unknown Title") as (_ & H2 & _).
  destruct (field_helpers_first_match_or_default Samples.titled_page Samples.bob
              "#content-text" "") as (_ & _ & H3 & _).
  destruct (field_helpers_first_match_or_default Samples.titled_page Samples.bob
              ".published-time-text" "") as (_ & _ & _ & H4).
  conjs.
  - apply H1. reflexivity.
  - exact (H2 (Samples.leaf " a ") [] eq_refl).
  - exact (proj1 (H3 (Samples.leaf " hi ") [] eq_refl)).
  - apply H4. left. reflexivity.
Defined.

(** X6.  An element yields no record exactly when its author reading or its
    text reading is blank: the child element is missing, or the first match
    shows nothing but white space (which [strip] removes). *)
Theorem no_record_iff_blank_reading (comment_element : WebElement) :
  _extract_comment comment_element = None
  <-> blank_reading comment_element "#author-text" = true
      \/ blank_reading comment_element "#content-text" = true.
Proof.
  rewrite <- !element_text_blank. unfold _extract_comment.
  destruct (_get_element_text comment_element "#author-text") as [|a s];
    [split; [left|]; reflexivity|].
  destruct (_get_element_text comment_element "#content-text") as [|b t];
    [split; [right|]; reflexivity|].
  cbn [truthy andb]. split; [discriminate|]. intros [H|H]; discriminate H.
Qed.

(** ** Further properties of the collection loop *)

(** What the [for] loop returns is what it was given, followed by records
    of elements of the list it reads, at most one per element visited. *)
Lemma extract_range_appends (max_comments : option nat) (elements : list WebElement) indices :
  forall comments c v,
    extract_range max_comments elements indices comments = Ret (c, v) ->
    exists new,
      c = comments ++ new
      /\ length new <= length v
      /\ Forall (fun r => exists e, In e elements /\ _extract_comment e = Some r) new.
Proof.
  induction indices as [|i rest IH]; intros comments c v H; cbn [extract_range] in H.
  - injection H as <- <-. exists []. rewrite app_nil_r. conjs; auto.
  - destruct (nth_error elements i) as [el|] eqn:Hnth; [|discriminate].
    destruct (_extract_comment el) as [data|] eqn:Hel.
    + assert (Hdata : exists e, In e elements /\ _extract_comment e = Some data)
        by (exists el; split; [eapply nth_error_In; exact Hnth|exact Hel]).
      destruct (limit_reached max_comments (comments ++ [data])).
      * injection H as <- <-. exists [data]. conjs; auto.
      * destruct (extract_range max_comments elements rest (comments ++ [data]))
          as [[c' v']| | |] eqn:E; try discriminate.
        cbn [bind fst snd] in H. injection H as <- <-.
        destruct (IH _ _ _ E) as (new & -> & Hlen & Hall).
        exists (data :: new). rewrite <- app_assoc. cbn [length app].
        conjs; [reflexivity|lia|constructor; assumption].
    + destruct (extract_range max_comments elements rest comments)
        as [[c' v']| | |] eqn:E; try discriminate.
      cbn [bind fst snd] in H. injection H as <- <-.
      destruct (IH _ _ _ E) as (new & -> & Hlen & Hall).
      exists new. cbn [length]. conjs; [reflexivity|lia|exact Hall].
Qed.

Lemma pass_appends (self : Session) (max_comments : option nat) (st : LoopState) (p : Pass) :
  loop_body self max_comments st = Ret p ->
  exists new,
    collected (next p) = collected st ++ new
    /\ length new <= 10
    /\ Forall (fun r => exists e, In e (comment_threads self (scroll_count st))
                                  /\ _extract_comment e = Some r) new.
Proof.
  intros E.
  destruct (loop_body_ok self max_comments st)
    as (p' & E' & _ & _ & _ & _ & (rest & Hpre) & _).
  rewrite E in E'. injection E' as <-.
  assert (length (visited p) <= 10) as Hv.
  { apply prefix_length in Hpre. rewrite range_length in Hpre.
    pose proof (end_index_bounds max_comments
                  (length (comment_threads self (scroll_count st)))
                  (length (collected st))). lia. }
  unfold loop_body in E.
  destruct (extract_range max_comments (comment_threads self (scroll_count st)) _ _)
    as [[c v]| | |] eqn:Er; try discriminate.
  cbn [bind fst snd] in E.
  destruct (extract_range_appends _ _ _ _ _ _ Er) as (new & -> & Hlen & Hall).
  exists new.
  destruct (limit_reached max_comments (collected st ++ new)); injection E as <-;
    cbn [next collected visited] in *; conjs; auto; lia.
Qed.

(** X7.  A pass of the loop only appends: the comments collected before it
    are still there, unchanged and in the same order, followed by at most ten
    new ones, each made from an element of the current query. *)
Theorem pass_only_appends (self : Session) (max_comments : option nat) (st : LoopState) :
  exists p new,
    loop_body self max_comments st = Ret p
    /\ collected (next p) = collected st ++ new
    /\ length new <= 10
    /\ Forall (fun r => exists e, In e (comment_threads self (scroll_count st))
                                  /\ _extract_comment e = Some r) new.
Proof.
  destruct (loop_body_ok self max_comments st) as (p & E & _).
  destruct (pass_appends self max_comments st p E) as (new & H).
  exists p, new. split; [exact E|exact H].
Qed.

Lemma from_page_kept (self : Session) (max_comments : option nat) :
  forall st p,
    Forall (from_page self) (collected st) -> guard max_comments st = true ->
    loop_body self max_comments st = Ret p ->
    Forall (from_page self) (collected (next p)).
Proof.
  intros st p HI G E. apply guard_true in G. destruct G as (_ & Hs & _).
  destruct (pass_appends self max_comments st p E) as (new & -> & _ & Hall).
  apply Forall_app. split; [exact HI|].
  eapply Forall_impl; [|exact Hall]. intros r (e & Hin & He).
  exists (scroll_count st), e. auto.
Qed.

Lemma truncate_within_cap max_comments comments :
  within_cap max_comments comments -> truncate max_comments comments = comments.
Proof.
  unfold within_cap, truncate. destruct max_comments as [m|]; [|reflexivity].
  destruct (Nat.eqb_spec m 0); [reflexivity|]. intros H. apply firstn_all2. auto.
Qed.

(** X8.  Nothing is lost or miscounted at the end.  For every cap, the
    comments of the result are exactly those the loop has collected (the
    final slice removes none), the count in the metadata is their number,
    and the sort label is the one passed in. *)
Theorem result_is_what_was_collected (self : Session) (video_url : string)
    (max_comments : option nat) (sort_by : string) :
  resolves video_url = true ->
  exists st res,
    collect self max_comments = Ret st
    /\ scrape_comments self video_url max_comments sort_by = Ret (Some res)
    /\ comments res = collected st
    /\ total_comments_collected (metadata res) = length (comments res)
    /\ sort_order (metadata res) = sort_by
    /\ get_video_info self video_url = Ret (Some (video_info res)).
Proof.
  intros Hid.
  destruct (get_video_info_resolved self video_url Hid) as (info & Hinfo).
  destruct (collect_within_cap self max_comments) as (st & E & Hcap).
  unfold scrape_comments. rewrite Hinfo. cbn [bind]. rewrite E. cbn [bind].
  eexists st, _. conjs; try reflexivity;
    cbn [comments metadata total_comments_collected video_info].
  - apply truncate_within_cap. exact Hcap.
  - rewrite (truncate_within_cap _ _ Hcap). unfold within_cap in Hcap.
    destruct max_comments as [m|]; [|reflexivity].
    destruct (Nat.eqb_spec m 0); [reflexivity|]. specialize (Hcap n). lia.
Qed.

Lemma result_is_what_was_collected_witness :
  exists st res,
    collect (Samples.static_page [Samples.bob; Samples.ann]) (Some 1) = Ret st
    /\ scrape_comments (Samples.static_page [Samples.bob; Samples.ann])
         "abcEFG01234" (Some 1) "newest" = Ret (Some res)
    /\ comments res = collected st
    /\ total_comments_collected (metadata res) = length (comments res).
Proof.
  destruct (result_is_what_was_collected
              (Samples.static_page [Samples.bob; Samples.ann])
              "abcEFG01234" (Some 1) "newest" eq_refl)
    as (st & res & H1 & H2 & H3 & H4 & _).
  exists st, res. auto.
Defined.

(** X9.  The result invents nothing: every comment in it was made by
    [_extract_comment] from an element that the comment query answered at one
    of the at most 30 scroll positions of the run. *)
Theorem result_comes_from_the_page (self : Session) (video_url : string)
    (max_comments : option nat) (sort_by : string) (res : ScrapeResult) :
  scrape_comments self video_url max_comments sort_by = Ret (Some res) ->
  Forall (from_page self) (comments res).
Proof.
  unfold scrape_comments.
  destruct (get_video_info self video_url) as [[info|]| | |]; cbn [bind];
    try discriminate.
  destruct (while_invariant self max_comments
              (fun st => Forall (from_page self) (collected st))
              (from_page_kept self max_comments) 30 initial)
    as (st & E & HI & _); [constructor|simpl; lia|].
  unfold collect. rewrite E. cbn [bind]. intros H. injection H as <-.
  cbn [comments]. unfold truncate.
  destruct max_comments as [m|]; [destruct (Nat.eqb m 0)|]; try exact HI.
  rewrite <- (firstn_skipn m (collected st)) in HI. apply Forall_app in HI. apply HI.
Qed.

Lemma scrape_returns (self : Session) (video_url : string) (max_comments : option nat)
    (sort_by : string) :
  resolves video_url = true ->
  exists res, scrape_comments self video_url max_comments sort_by = Ret (Some res).
Proof.
  intros Hid.
  destruct (get_video_info_resolved self video_url Hid) as (info & Hinfo).
  destruct (collect_total self max_comments) as (st & E & _).
  unfold scrape_comments. rewrite Hinfo. cbn [bind]. rewrite E. eexists. reflexivity.
Qed.

Lemma result_comes_from_the_page_witness :
  exists res,
    scrape_comments (Samples.static_page [Samples.anonymous; Samples.bob])
      "abcEFG01234" None "top" = Ret (Some res)
    /\ Forall (from_page (Samples.static_page [Samples.anonymous; Samples.bob]))
         (comments res).
Proof.
  destruct (scrape_returns (Samples.static_page [Samples.anonymous; Samples.bob])
              "abcEFG01234" None "top" eq_refl) as (res & E).
  exists res. split; [exact E|].
  exact (result_comes_from_the_page _ "abcEFG01234" None "top" res E).
Defined.

Lemma bounds_kept (self : Session) (max_comments : option nat) :
  forall st p,
    (scroll_count st <= 30 /\ consecutive_unchanged st <= 3
     /\ (length (collected st) <= 10 * scroll_count st
         \/ (limit_reached max_comments (collected st) = true
             /\ scroll_count st < 30
             /\ length (collected st) <= 10 * scroll_count st + 10))) ->
    guard max_comments st = true ->
    loop_body self max_comments st = Ret p ->
    (scroll_count (next p) <= 30 /\ consecutive_unchanged (next p) <= 3
     /\ (length (collected (next p)) <= 10 * scroll_count (next p)
         \/ (limit_reached max_comments (collected (next p)) = true
             /\ scroll_count (next p) < 30
             /\ length (collected (next p)) <= 10 * scroll_count (next p) + 10))).
Proof.
  intros st p (H30 & H3 & Hlen) G E.
  pose proof (guard_true max_comments st G) as (Hlim & Hs & Hu).
  destruct (loop_body_facts self max_comments st p E) as (Hb & Hsc & Hl & Hc).
  destruct (pass_appends self max_comments st p E) as (new & Hnew & Hn & _).
  assert (length (collected st) <= 10 * scroll_count st) as Hk
    by (destruct Hlen as [Hk|(Hk & _)]; [exact Hk|congruence]).
  rewrite <- Hb, Hsc, Hc. rewrite Hnew, length_app.
  destruct (broke p);
    destruct (Nat.ltb (last_comment_count st)
                (length (comment_threads self (scroll_count st))));
    (split; [lia|split; [lia|]]);
    first [left; lia | right; conjs; [reflexivity|lia|lia]].
Qed.

(** X10.  The loop comes to an end on every page and with every cap, without
    an index error even when the page shrinks between queries: after at most
    30 scrolls, with at most 3 stalls counted, the guard false, and at most
    300 comments collected. *)
Theorem collection_always_ends (self : Session) (max_comments : option nat) :
  exists st,
    collect self max_comments = Ret st
    /\ guard max_comments st = false
    /\ scroll_count st <= 30
    /\ consecutive_unchanged st <= 3
    /\ length (collected st) <= 300.
Proof.
  destruct (while_invariant self max_comments _ (bounds_kept self max_comments) 30 initial)
    as (st & E & (H30 & H3 & Hlen) & G); [cbn; lia|cbn; lia|].
  exists st. conjs; auto. lia.
Qed.

Lemma stall_bounds_kept (self : Session) (max_comments : option nat) :
  (forall n, length (comment_threads self (S n)) <= length (comment_threads self n)) ->
  forall st p,
    (stall_inv self max_comments st
     /\ length (collected st) <= 40
     /\ (limit_reached max_comments (collected st) = true
         \/ length (collected st) <= 10 * scroll_count st)) ->
    guard max_comments st = true ->
    loop_body self max_comments st = Ret p ->
    (stall_inv self max_comments (next p)
     /\ length (collected (next p)) <= 40
     /\ (limit_reached max_comments (collected (next p)) = true
         \/ length (collected (next p)) <= 10 * scroll_count (next p))).
Proof.
  intros Hmono st p (HI & H40 & Hlen) G E.
  split; [exact (stall_inv_kept self max_comments Hmono st p HI G E)|].
  pose proof (guard_true max_comments st G) as (Hlim & Hs & Hu).
  destruct (loop_body_facts self max_comments st p E) as (Hb & Hsc & _).
  destruct (pass_appends self max_comments st p E) as (new & Hnew & Hn & _).
  assert (length (collected st) <= 10 * scroll_count st) as Hk
    by (destruct Hlen as [Hk|Hk]; [congruence|exact Hk]).
  assert (scroll_count st <= 3) as Hs3.
  { unfold stall_inv in HI.
    destruct HI as [HI|[(H0 & _)|(_ & _ & H2 & _)]]; [congruence|lia|].
    destruct (Nat.eqb (length (comment_threads self 0)) 0); lia. }
  rewrite <- Hb, Hsc, Hnew, length_app.
  destruct (broke p); (split; [lia|]); first [left; reflexivity | right; lia].
Qed.

(** X11.  A page whose thread count never grows gives at most 40 comments,
    however many threads it holds and whatever the cap: each pass takes at
    most ten and the loop stops after the third stall, which is pass 4 at the
    latest. *)
Theorem stalled_page_gives_at_most_forty (self : Session) (max_comments : option nat) :
  (forall n, length (comment_threads self (S n)) <= length (comment_threads self n)) ->
  exists st,
    collect self max_comments = Ret st
    /\ length (collected st) <= 40.
Proof.
  intros Hmono.
  destruct (while_invariant self max_comments _
              (stall_bounds_kept self max_comments Hmono) 30 initial)
    as (st & E & (_ & H40 & _) & _).
  - split; [right; left; auto|]. cbn. split; [lia|right; lia].
  - cbn. lia.
  - exists st. auto.
Qed.

Lemma stalled_page_gives_at_most_forty_witness :
  exists st,
    collect (Samples.static_page (repeat Samples.bob 100)) None = Ret st
    /\ length (collected st) <= 40.
Proof.
  apply (stalled_page_gives_at_most_forty
           (Samples.static_page (repeat Samples.bob 100)) None).
  intros n. cbn. lia.
Defined.

(** A cap of 0 is no cap. *)
Lemma extract_range_zero_cap (elements : list WebElement) indices :
  forall comments,
    extract_range (Some 0) elements indices comments
    = extract_range None elements indices comments.
Proof.
  induction indices as [|i rest IH]; intros comments; cbn [extract_range]; [reflexivity|].
  destruct (nth_error elements i); [|reflexivity].
  destruct (_extract_comment w); rewrite IH; reflexivity.
Qed.

Lemma loop_body_zero_cap (self : Session) (st : LoopState) :
  loop_body self (Some 0) st = loop_body self None st.
Proof. unfold loop_body. rewrite extract_range_zero_cap. reflexivity. Qed.

Lemma while_loop_zero_cap (self : Session) fuel :
  forall st, while_loop fuel self (Some 0) st = while_loop fuel self None st.
Proof.
  induction fuel as [|fuel IH]; intros st; cbn [while_loop];
    change (guard (Some 0) st) with (guard None st); [reflexivity|].
  rewrite loop_body_zero_cap. destruct (guard None st); [|reflexivity].
  destruct (loop_body self None st) as [p| | |]; cbn [bind]; try reflexivity.
  rewrite IH. reflexivity.
Qed.

(** X12.  A cap of 0 does not mean "no comments": 0 is falsy in every test
    of the cap, so [scrape_comments] does with 0 exactly what it does without
    a cap, and answering the prompt with [0] gives what leaving it empty
    gives. *)
Theorem zero_cap_is_no_cap (self : Session) (video_url sort_by output_format : string) :
  scrape_comments self video_url (Some 0) sort_by
  = scrape_comments self video_url None sort_by
  /\ main self {| in_video_url := video_url; in_max_comments := "0";
                  in_sort_option := sort_by; in_output_format := output_format |}
     = main self {| in_video_url := video_url; in_max_comments := EmptyString;
                    in_sort_option := sort_by; in_output_format := output_format |}.
Proof.
  assert (forall s, scrape_comments self video_url (Some 0) s
                    = scrape_comments self video_url None s) as H.
  { intros s. unfold scrape_comments, collect. rewrite while_loop_zero_cap. reflexivity. }
  split; [apply H|].
  unfold main. cbn [in_max_comments in_video_url in_sort_option in_output_format].
  change (parse_max_comments "0") with (@Ret (option nat) (Some 0)).
  change (parse_max_comments EmptyString) with (@Ret (option nat) None).
  cbv iota beta. rewrite H. reflexivity.
Qed.

(** *** Pages that only add valid threads *)

Lemma skipn_nth_error {A : Type} (l : list A) :
  forall s x, nth_error l s = Some x -> skipn s l = x :: skipn (S s) l.
Proof.
  induction l as [|a l IH]; intros [|s] x H; try discriminate.
  - injection H as <-. reflexivity.
  - cbn [nth_error] in H. change (skipn (S s) (a :: l)) with (skipn s l).
    rewrite (IH s x H). reflexivity.
Qed.

Lemma firstn_add {A : Type} (l : list A) :
  forall s d, firstn (s + d) l = firstn s l ++ firstn d (skipn s l).
Proof.
  induction l as [|a l IH]; intros [|s] d; cbn [Nat.add firstn skipn app];
    try reflexivity.
  - rewrite firstn_nil. reflexivity.
  - rewrite IH. reflexivity.
Qed.

Lemma record_list_app l1 l2 : record_list (l1 ++ l2) = record_list l1 ++ record_list l2.
Proof. unfold record_list. apply flat_map_app. Qed.

Lemma record_list_length l :
  Forall (fun e => is_valid e = true) l -> length (record_list l) = length l.
Proof.
  induction 1 as [|e l He _ IH]; [reflexivity|].
  unfold record_list in *. cbn [flat_map]. unfold is_valid in He.
  destruct (_extract_comment e); [|discriminate].
  cbn [app length]. rewrite IH. reflexivity.
Qed.

(** The [for] loop visits all of its window and appends the records of the
    elements in it: when the window ends at the cap or before it, the limit
    can only be reached at the last index. *)
Lemma extract_range_window (max_comments : option nat) (elements : list WebElement) :
  forall d s comments,
    length comments <= s ->
    s + d <= length elements ->
    (forall m, max_comments = Some m -> m <> 0 -> s + d <= m) ->
    extract_range max_comments elements (seq s d) comments
    = Ret (comments ++ record_list (firstn d (skipn s elements)), seq s d).
Proof.
  induction d as [|d IH]; intros s comments Hlen Hin Hcap; cbn [seq extract_range].
  - cbn [firstn record_list flat_map]. rewrite app_nil_r. reflexivity.
  - destruct (nth_error elements s) as [el|] eqn:Hnth.
    2:{ apply nth_error_None in Hnth. lia. }
    rewrite (skipn_nth_error _ _ _ Hnth). cbn [firstn].
    unfold record_list at 1. cbn [flat_map].
    fold (record_list (firstn d (skipn (S s) elements))).
    destruct (_extract_comment el) as [data|].
    + assert (length (comments ++ [data]) <= S s) as Hlen'
        by (rewrite length_app; cbn; lia).
      destruct (limit_reached max_comments (comments ++ [data])) eqn:Hlim.
      * apply limit_reached_true in Hlim. destruct Hlim as (m & Em & Hm & Hle).
        specialize (Hcap m Em Hm). assert (d = 0) as -> by lia. reflexivity.
      * rewrite (IH (S s) (comments ++ [data]) Hlen'); [|lia|].
        -- cbn [bind fst snd]. rewrite <- app_assoc. reflexivity.
        -- intros m Em Hm. specialize (Hcap m Em Hm). lia.
    + rewrite (IH (S s) comments); [reflexivity|lia|lia|].
      intros m Em Hm. specialize (Hcap m Em Hm). lia.
Qed.

(** On valid elements the [for] loop appends the records of its window. *)
Lemma extract_range_records (max_comments : option nat) (elements : list WebElement) :
  Forall (fun e => is_valid e = true) elements ->
  forall d s comments,
    length comments = s ->
    s + d <= length elements ->
    (forall m, max_comments = Some m -> m <> 0 -> s + d <= m) ->
    extract_range max_comments elements (seq s d) comments
    = Ret (comments ++ record_list (firstn d (skipn s elements)), seq s d).
Proof.
  intros _ d s comments Hlen. apply extract_range_window. lia.
Qed.

Lemma record_list_bound l : length (record_list l) <= length l.
Proof.
  induction l as [|e l IH]; [apply le_n|].
  unfold record_list in *. cbn [flat_map]. rewrite length_app.
  destruct (_extract_comment e); cbn [length] in *; lia.
Qed.

(** C4.  In every pass the elements handed to [_extract_comment] are those
    of the window [start, end), all of them and in order, where [start] is
    the number of comments collected so far and [end] is the least of the
    number of elements found, [start + 10] and the cap when one is set (a
    cap of 0 is no cap).  The pass appends the records of these elements to
    what was collected.  So it handles at most 10 elements and adds at most
    10 comments, however many elements the query found. *)
Theorem window_is_at_most_ten (self : Session) (max_comments : option nat)
    (st : LoopState) :
  let comment_elements := comment_threads self (scroll_count st) in
  let found := length comment_elements in
  let start_index := length (collected st) in
  let end_idx :=
    match max_comments with
    | Some (S m) => Nat.min (Nat.min found (start_index + 10)) (S m)
    | _ => Nat.min found (start_index + 10)
    end in
  exists p,
    loop_body self max_comments st = Ret p
    /\ visited p = seq start_index (end_idx - start_index)
    /\ length (visited p) = end_idx - start_index
    /\ length (visited p) <= 10
    /\ collected (next p)
       = collected st
         ++ record_list (firstn (end_idx - start_index) (skipn start_index comment_elements))
    /\ length (collected (next p)) <= start_index + 10.
Proof.
  intros comment_elements found start_index end_idx.
  assert (Hend : end_index max_comments found start_index = end_idx).
  { unfold end_index, end_idx. destruct max_comments as [[|m]|]; reflexivity. }
  assert (Hten : end_idx - start_index <= 10)
    by (unfold end_idx; destruct max_comments as [[|m]|]; lia).
  assert (Hfound : end_idx <= found)
    by (unfold end_idx; destruct max_comments as [[|m]|]; lia).
  assert (Hcap : forall m, max_comments = Some m -> m <> 0 -> end_idx <= m).
  { intros m -> Hm. unfold end_idx. destruct m as [|m]; [contradiction|lia]. }
  assert (Hrun : extract_range max_comments comment_elements
                   (range start_index end_idx) (collected st)
                 = Ret (collected st
                        ++ record_list (firstn (end_idx - start_index)
                                          (skipn start_index comment_elements)),
                        seq start_index (end_idx - start_index))).
  { unfold range. destruct (Nat.le_gt_cases end_idx start_index) as [Hle|Hlt].
    - replace (end_idx - start_index) with 0 by lia.
      cbn [seq extract_range firstn record_list flat_map]. rewrite app_nil_r.
      reflexivity.
    - apply extract_range_window; [apply le_n|fold found; lia|].
      intros m Em Hm. specialize (Hcap m Em Hm). lia. }
  unfold loop_body. fold comment_elements found start_index.
  rewrite Hend, Hrun. cbn [bind fst snd].
  set (new := record_list (firstn (end_idx - start_index)
                             (skipn start_index comment_elements))).
  assert (length new <= 10) as Hnew.
  { unfold new. pose proof (record_list_bound
      (firstn (end_idx - start_index) (skipn start_index comment_elements))) as H.
    rewrite length_firstn in H. lia. }
  destruct (limit_reached max_comments (collected st ++ new));
    eexists; (split; [reflexivity|]); cbn [visited next collected];
    rewrite length_seq, length_app; fold start_index; conjs; auto; lia.
Qed.

Lemma end_index_cap max_comments found have m :
  max_comments = Some m -> m <> 0 -> end_index max_comments found have <= m.
Proof.
  intros -> Hm. unfold end_index. destruct (Nat.eqb_spec m 0); [contradiction|lia].
Qed.

Lemma orderly_kept (self : Session) (max_comments : option nat) :
  (forall n, exists more, comment_threads self (S n) = comment_threads self n ++ more) ->
  (forall n, Forall (fun e => is_valid e = true) (comment_threads self n)) ->
  forall st p,
    (length (collected st) <= length (comment_threads self (scroll_count st))
     /\ collected st
        = record_list (firstn (length (collected st))
                         (comment_threads self (scroll_count st)))) ->
    guard max_comments st = true ->
    loop_body self max_comments st = Ret p ->
    (length (collected (next p)) <= length (comment_threads self (scroll_count (next p)))
     /\ collected (next p)
        = record_list (firstn (length (collected (next p)))
                         (comment_threads self (scroll_count (next p))))).
Proof.
  intros Happend Hvalid st p (Hk & Hrec) G E.
  pose proof (guard_true max_comments st G) as (Hlim & _).
  set (elements := comment_threads self (scroll_count st)) in *.
  set (k := length (collected st)) in *.
  set (e := end_index max_comments (length elements) k).
  assert (e <= length elements /\ e <= k + 10) as (He1 & He2)
    by apply end_index_bounds.
  assert (k <= e) as Hke.
  { unfold e, end_index. destruct max_comments as [m|] eqn:Em; [|lia].
    destruct (Nat.eqb_spec m 0); [lia|].
    pose proof (limit_reached_false (Some m) _ Hlim m eq_refl n). fold k in H. lia. }
  assert (Hnext : collected (next p) = record_list (firstn e elements)
                  /\ scroll_count (next p)
                     = if broke p then scroll_count st else S (scroll_count st)).
  { unfold loop_body in E. fold elements k e in E. unfold range in E.
    rewrite (extract_range_records max_comments elements (Hvalid _) (e - k) k) in E;
      [|reflexivity|lia|].
    - cbn [bind fst snd] in E.
      assert (collected st ++ record_list (firstn (e - k) (skipn k elements))
              = record_list (firstn e elements)) as Hc.
      { rewrite Hrec at 1. rewrite <- record_list_app, <- firstn_add.
        replace (k + (e - k)) with e by lia. reflexivity. }
      rewrite Hc in E.
      destruct (limit_reached max_comments (record_list (firstn e elements)));
        injection E as <-; split; reflexivity.
    - intros m Em Hm. pose proof (end_index_cap _ (length elements) k m Em Hm).
      fold e in H. lia. }
  destruct Hnext as (Hc & Hs).
  assert (length (collected (next p)) = e) as Hlen.
  { rewrite Hc, record_list_length.
    - apply firstn_length_le. exact He1.
    - pose proof (Hvalid (scroll_count st)) as Hv. fold elements in Hv.
      rewrite <- (firstn_skipn e elements) in Hv. apply Forall_app in Hv. apply Hv. }
  rewrite Hlen, Hs. destruct (broke p).
  - fold elements. split; [exact He1|exact Hc].
  - destruct (Happend (scroll_count st)) as (more & ->). fold elements.
    rewrite length_app, firstn_app.
    replace (e - length elements) with 0 by lia.
    cbn [firstn]. rewrite app_nil_r. split; [lia|exact Hc].
Qed.

(** X13.  On a page whose query answers only ever gain threads at the end,
    all of them valid, the loop takes the threads in page order, each once:
    what it has collected is the list of records of the first [k] threads,
    [k] being the number collected. *)
Theorem orderly_page_is_read_in_order (self : Session) (max_comments : option nat) :
  (forall n, exists more, comment_threads self (S n) = comment_threads self n ++ more) ->
  (forall n, Forall (fun e => is_valid e = true) (comment_threads self n)) ->
  exists st,
    collect self max_comments = Ret st
    /\ length (collected st) <= length (comment_threads self (scroll_count st))
    /\ collected st
       = record_list (firstn (length (collected st))
                        (comment_threads self (scroll_count st))).
Proof.
  intros Happend Hvalid.
  destruct (while_invariant self max_comments _
              (orderly_kept self max_comments Happend Hvalid) 30 initial)
    as (st & E & H & _).
  - cbn. split; [lia|reflexivity].
  - cbn. lia.
  - exists st. split; [exact E|exact H].
Qed.

Lemma orderly_page_is_read_in_order_witness :
  exists st,
    collect Samples.endless_page (Some 25) = Ret st
    /\ length (collected st) <= length (comment_threads Samples.endless_page (scroll_count st))
    /\ collected st
       = record_list (firstn (length (collected st))
                        (comment_threads Samples.endless_page (scroll_count st))).
Proof.
  apply (orderly_page_is_read_in_order Samples.endless_page (Some 25)).
  - intros n. exists [Samples.bob]. cbn [comment_threads Samples.endless_page Samples.session].
    change (repeat Samples.bob (S (S n))) with (Samples.bob :: repeat Samples.bob (S n)).
    rewrite <- repeat_cons. reflexivity.
  - intros n. apply Forall_forall. intros e He. apply repeat_spec in He. subst e.
    reflexivity.
Defined.

(** *** The start index counts records, not elements *)

Lemma while_step (self : Session) (max_comments : option nat) fuel st p :
  guard max_comments st = true ->
  loop_body self max_comments st = Ret p ->
  while_loop (S fuel) self max_comments st
  = if broke p then Ret (next p) else while_loop fuel self max_comments (next p).
Proof. intros G E. cbn [while_loop]. rewrite G, E. reflexivity. Qed.

Lemma while_done (self : Session) (max_comments : option nat) fuel st :
  guard max_comments st = false -> while_loop fuel self max_comments st = Ret st.
Proof. intros G. destruct fuel; cbn [while_loop]; rewrite G; reflexivity. Qed.

(** X14.  The window starts at the number of records collected, not at the
    number of elements handled.  On a page that shows, from the start, a
    thread without a record followed by a valid thread, the second pass
    begins at index 1 again and the valid thread is collected twice (with no
    cap, or a cap of at least 2). *)
Theorem thread_after_invalid_is_collected_twice (e v : WebElement) (r : CommentRecord)
    (max_comments : option nat) :
  _extract_comment e = None ->
  _extract_comment v = Some r ->
  (max_comments = None \/ exists m, max_comments = Some (S (S m))) ->
  exists st,
    collect (Samples.static_page [e; v]) max_comments = Ret st
    /\ collected st = [r; r].
Proof.
  intros He Hv Hcap. unfold collect.
  assert (Hpass : forall st p',
            loop_body (Samples.static_page [e; v]) max_comments st = Ret p' ->
            guard max_comments st = true ->
            forall fuel,
              while_loop (S fuel) (Samples.static_page [e; v]) max_comments st
              = if broke p' then Ret (next p')
                else while_loop fuel (Samples.static_page [e; v]) max_comments (next p'))
    by (intros st p' E G fuel; apply while_step; assumption).
  destruct Hcap as [-> | ([|m] & ->)].
  - erewrite Hpass;
      [|unfold loop_body; cbn; rewrite He; cbn; rewrite Hv; reflexivity|reflexivity].
    cbn [broke next].
    erewrite Hpass; [|unfold loop_body; cbn; rewrite Hv; reflexivity|reflexivity].
    cbn [broke next].
    erewrite Hpass; [|unfold loop_body; cbn; reflexivity|reflexivity].
    cbn [broke next].
    erewrite Hpass; [|unfold loop_body; cbn; reflexivity|reflexivity].
    cbn [broke next].
    rewrite while_done by reflexivity. eexists. split; reflexivity.
  - erewrite Hpass;
      [|unfold loop_body; cbn; rewrite He; cbn; rewrite Hv; reflexivity|reflexivity].
    cbn [broke next].
    erewrite Hpass; [|unfold loop_body; cbn; rewrite Hv; reflexivity|reflexivity].
    cbn [broke next]. eexists. split; reflexivity.
  - erewrite Hpass;
      [|unfold loop_body; cbn; rewrite He; cbn; rewrite Hv; reflexivity|reflexivity].
    cbn [broke next].
    erewrite Hpass; [|unfold loop_body; cbn; rewrite Hv; reflexivity|reflexivity].
    cbn [broke next].
    erewrite Hpass; [|unfold loop_body; cbn; reflexivity|reflexivity].
    cbn [broke next].
    erewrite Hpass; [|unfold loop_body; cbn; reflexivity|reflexivity].
    cbn [broke next].
    rewrite while_done by reflexivity. eexists. split; reflexivity.
Qed.

Lemma thread_after_invalid_is_collected_twice_witness :
  exists st,
    collect (Samples.static_page [Samples.anonymous; Samples.ann]) (Some 25) = Ret st
    /\ collected st
       = [ {| author := "ann"; comment_text := "yo"; likes := "0"; timestamp := "Unknown" |};
           {| author := "ann"; comment_text := "yo"; likes := "0"; timestamp := "Unknown" |} ].
Proof.
  apply (thread_after_invalid_is_collected_twice Samples.anonymous Samples.ann _ (Some 25));
    [reflexivity|reflexivity|].
  right. exists 23. reflexivity.
Defined.

(** ** Further properties of the command line and the exporters *)

Lemma string_of_uint_decimal d :
  all_chars is_decimal (DecimalString.NilEmpty.string_of_uint d) = true.
Proof. induction d; cbn [DecimalString.NilEmpty.string_of_uint all_chars]; auto. Qed.

Lemma decimal_is_digit s : all_chars is_decimal s = true -> all_chars is_digit s = true.
Proof.
  induction s as [|a s IH]; cbn [all_chars]; intros H; [reflexivity|].
  apply andb_true_iff in H. destruct H as (Ha & H).
  rewrite (IH H). unfold is_digit. rewrite Ha. reflexivity.
Qed.

Lemma decimal_value_of_uint d :
  forall acc,
    decimal_value acc (DecimalString.NilEmpty.string_of_uint d) = Nat.of_uint_acc d acc.
Proof.
  induction d as [|d IH|d IH|d IH|d IH|d IH|d IH|d IH|d IH|d IH|d IH]; intros acc;
    cbn [DecimalString.NilEmpty.string_of_uint decimal_value Nat.of_uint_acc];
    [reflexivity|..];
    rewrite Nat.tail_mul_spec, <- IH; f_equal;
    cbn [nat_of_ascii]; cbn; lia.
Qed.

Lemma to_uint_not_nil n : Nat.to_uint n <> Decimal.Nil.
Proof.
  intros E. pose proof (DecimalNat.Unsigned.of_to n) as H. rewrite E in H.
  cbn in H. subst n. discriminate E.
Qed.

(** X15.  The prompt reads back a number as typed: the decimal numeral of
    [n] is parsed to the cap [n], without error, as long as it has at most
    4300 digits; on a longer numeral [int] raises. *)
Theorem typed_number_is_the_cap (n : nat) :
  (String.length (str_of_nat n) <= 4300 ->
   parse_max_comments (str_of_nat n) = Ret (Some n))
  /\ (4300 < String.length (str_of_nat n) ->
      parse_max_comments (str_of_nat n) = Raise ValueError).
Proof.
  unfold parse_max_comments, str_of_nat, isdigit.
  pose proof (string_of_uint_decimal (Nat.to_uint n)) as Hdec.
  rewrite (decimal_is_digit _ Hdec), Hdec, decimal_value_of_uint.
  fold (Nat.of_uint (Nat.to_uint n)). rewrite DecimalNat.Unsigned.of_to.
  assert (truthy (DecimalString.NilEmpty.string_of_uint (Nat.to_uint n)) = true) as ->.
  { pose proof (to_uint_not_nil n) as Hnil.
    destruct (Nat.to_uint n); [contradiction|..]; reflexivity. }
  cbn [andb]. split; intros H.
  - apply Nat.leb_le in H. rewrite H. reflexivity.
  - apply Nat.leb_gt in H. rewrite H. reflexivity.
Qed.

Lemma typed_number_is_the_cap_witness :
  String.length (str_of_nat 25) <= 4300 /\ parse_max_comments "25" = Ret (Some 25).
Proof.
  assert (String.length (str_of_nat 25) <= 4300) as H by (cbn; lia).
  split; [exact H|]. exact (proj1 (typed_number_is_the_cap 25) H).
Defined.




Lemma scrape_result_id (self : Session) (video_url : string) (max_comments : option nat)
    (sort_by : string) (res : ScrapeResult) :
  scrape_comments self video_url max_comments sort_by = Ret (Some res) ->
  extract_video_id video_url = Ret (Some (video_id (video_info res)))
  /\ truthy (video_id (video_info res)) = true.
Proof.
  unfold scrape_comments, get_video_info.
  destruct (extract_video_id video_url) as [[id|]| | |]; cbn [bind]; try discriminate.
  destruct (truthy id) eqn:Hid; [|discriminate].
  destruct (collect self max_comments); cbn [bind]; try discriminate.
  intros H. injection H as <-. cbn [video_info video_id]. auto.
Qed.

(** X17.  Whatever [main] writes is the result of the scrape.  It writes at
    most two files; a JSON file holds the whole result, a CSV file holds the
    comments of that result and is written only when there is at least one;
    both are named after the identifier in the result and the time stamp. *)
Theorem written_files_hold_the_result (self : Session) (inp : Inputs) :
  length (fst (main self inp)) <= 2
  /\ Forall (fun f =>
       exists max_comments res,
         parse_max_comments (in_max_comments inp) = Ret max_comments
         /\ scrape_comments self (in_video_url inp) max_comments
              (or_else (lower (in_sort_option inp)) "top") = Ret (Some res)
         /\ (f = JsonFile (("yt_comments_" ++ video_id (video_info res) ++ "_"
                             ++ file_stamp self) ++ ".json")%string res
             \/ (f = CsvFile (("yt_comments_" ++ video_id (video_info res) ++ "_"
                                ++ file_stamp self) ++ ".csv")%string (comments res)
                 /\ comments res <> [])))
       (fst (main self inp)).
Proof.
  unfold main.
  destruct (parse_max_comments (in_max_comments inp)) as [max_comments| | |] eqn:Ep;
    try (split; [cbn; lia|constructor]).
  destruct (extract_video_id (in_video_url inp)) as [found| | |] eqn:Ex;
    try (split; [cbn; lia|constructor]).
  destruct (scrape_comments _ _ _ _) as [[data|]| | |] eqn:Es;
    try (split; [cbn; lia|constructor]).
  destruct (scrape_result_id _ _ _ _ _ Es) as (Eid & Hid).
  rewrite Ex in Eid. injection Eid as ->.
  assert (or_else (video_id (video_info data)) "video" = video_id (video_info data)) as ->
    by (unfold or_else; rewrite Hid; reflexivity).
  cbn [fst].
  unfold save_to_json, save_to_csv.
  split.
  - destruct (one_of _ ["json"; "both"]), (one_of _ ["csv"; "both"]),
      (comments data); cbn; lia.
  - apply Forall_app. split.
    + destruct (one_of _ ["json"; "both"]); constructor; [|constructor].
      exists max_comments, data. conjs; auto.
    + destruct (one_of _ ["csv"; "both"]); [|constructor].
      destruct (comments data) as [|c rest] eqn:Ec; constructor; [|constructor].
      exists max_comments, data. conjs; auto. right. rewrite Ec. split; [reflexivity|discriminate].
Qed.
